(** * vroom: startup code of the request-dispatch layer

    A shallow embedding of the initialisation code of the Go packages
    [auth], [api_ws] and [api_http], with the library functions they call,
    and the properties of the startup protocol proved over it.

    Go values are modelled as follows: [string] is a byte string
    ([String.string]); [int] is a [Z] inside the range of the platform's
    word; [error] is [option] of the message, [None] being [nil]; a func
    value is [option Func], [None] being [nil]; package-level variables are
    the fields of a state record that every function threads. *)

From Stdlib Require Import ZArith List String Ascii Bool Lia.
From Stdlib Require DecimalString DecimalZ.
Import ListNotations.

Local Open Scope string_scope.
Local Open Scope Z_scope.

(** Go's [error]: [nil] or a value carrying a message. *)
Definition error : Type := option string.

(** A Go func value that is not nil: an opaque reference to code. *)
Inductive Func : Type := FuncRef (name : string).

(* ================================================================== *)
(** ** Package strconv (Go standard library), base 10 only            *)
(* ================================================================== *)

Module strconv.

(** [strconv.IntSize]: the size in bits of an [int]. *)
Inductive IntSize : Type := Int32 | Int64.

Definition bits (sz : IntSize) : Z :=
  match sz with Int32 => 32 | Int64 => 64 end.

(** [*NumError].Err *)
Inductive NumError : Type := ErrSyntax | ErrRange.

Definition maxUint64 : Z := 2 ^ 64 - 1.

(** Arithmetic on [uint64] wraps around. *)
Definition uint64 (n : Z) : Z := n mod 2 ^ 64.

(** Conversion to [int64], two's complement. *)
Definition int64 (n : Z) : Z := (n + 2 ^ 63) mod 2 ^ 64 - 2 ^ 63.

(** Conversion of an [int64] to [int]. *)
Definition int (sz : IntSize) (n : Z) : Z :=
  (n + 2 ^ (bits sz - 1)) mod 2 ^ bits sz - 2 ^ (bits sz - 1).

Definition byte_of (c : ascii) : Z := Z.of_N (N_of_ascii c).

(** The digit loop of [ParseUint] for base 10:
<<
    for _, c := range []byte(s) {
        switch { case '0' <= c && c <= '9': d = c - '0' ...
                 default: return 0, syntaxError }
        if d >= byte(base) { return 0, syntaxError }
        if n >= cutoff { return maxVal, rangeError }
        n *= uint64(base)
        n1 := n + uint64(d)
        if n1 < n || n1 > maxVal { return maxVal, rangeError }
        n = n1
    }
    return n, nil
>>
    Letters are digits of value 10 and more, which base 10 refuses. *)
Fixpoint ParseUint_loop (cutoff maxVal : Z) (s : string) (n : Z)
  : Z * option NumError :=
  match s with
  | EmptyString => (n, None)
  | String c s' =>
      if (byte_of "0" <=? byte_of c) && (byte_of c <=? byte_of "9") then
        let d := byte_of c - byte_of "0" in
        if cutoff <=? n then (maxVal, Some ErrRange)
        else
          let n := uint64 (n * 10) in
          let n1 := uint64 (n + d) in
          if (n1 <? n) || (maxVal <? n1) then (maxVal, Some ErrRange)
          else ParseUint_loop cutoff maxVal s' n1
      else (0, Some ErrSyntax)
  end.

(** [ParseUint(s, 10, bitSize)], [bitSize] being 0 or a valid size. *)
Definition ParseUint (sz : IntSize) (s : string) (bitSize : Z)
  : Z * option NumError :=
  if (s =? "")%string then (0, Some ErrSyntax)
  else
    let bitSize := if bitSize =? 0 then bits sz else bitSize in
    let cutoff := maxUint64 / 10 + 1 in
    let maxVal := uint64 (uint64 (Z.shiftl 1 bitSize) - 1) in
    ParseUint_loop cutoff maxVal s 0.

(** [ParseInt(s, 10, bitSize)]: the sign is picked off, the magnitude is
    read by [ParseUint], and its range is checked against the signed
    cutoff; out of range, the result is the integer of largest magnitude
    of that sign together with a range error. *)
Definition ParseInt (sz : IntSize) (s : string) (bitSize : Z)
  : Z * option NumError :=
  match s with
  | EmptyString => (0, Some ErrSyntax)
  | String c0 s' =>
      let neg := Ascii.eqb c0 "-" in
      let s := if Ascii.eqb c0 "+" || neg then s' else s in
      match ParseUint sz s bitSize with
      | (_, Some ErrSyntax) => (0, Some ErrSyntax)
      | (un, _) =>
          let bitSize := if bitSize =? 0 then bits sz else bitSize in
          let cutoff := uint64 (Z.shiftl 1 (bitSize - 1)) in
          if negb neg && (cutoff <=? un) then
            (int64 (cutoff - 1), Some ErrRange)
          else if neg && (cutoff <? un) then
            (int64 (- int64 cutoff), Some ErrRange)
          else
            let n := int64 un in
            (if neg then int64 (- n) else n, None)
      end
  end.

(** [Atoi(s)] is [ParseInt(s, 10, 0)] converted to [int]; the value comes
    back with the error. *)
Definition Atoi (sz : IntSize) (s : string) : Z * option NumError :=
  let '(i64, err) := ParseInt sz s 0 in
  (int sz i64, err).

(** *** What a decimal integer literal denotes

    The reading of [s] as an optionally signed, non-empty run of decimal
    digits, with no bound on the value: the yardstick [Atoi] is compared
    with. *)

Definition is_digit (c : ascii) : bool :=
  (48 <=? byte_of c) && (byte_of c <=? 57).

Fixpoint digits_value (acc : Z) (s : string) : option Z :=
  match s with
  | EmptyString => Some acc
  | String c s' =>
      if is_digit c then digits_value (10 * acc + (byte_of c - 48)) s'
      else None
  end.

Definition magnitude (s : string) : option Z :=
  match s with
  | EmptyString => None
  | _ => digits_value 0 s
  end.

Definition int_literal (s : string) : option Z :=
  match s with
  | EmptyString => None
  | String c s' =>
      if Ascii.eqb c "+" then magnitude s'
      else if Ascii.eqb c "-" then option_map Z.opp (magnitude s')
      else magnitude s
  end.

Definition minInt (sz : IntSize) : Z := - 2 ^ (bits sz - 1).
Definition maxInt (sz : IntSize) : Z := 2 ^ (bits sz - 1) - 1.

Definition in_int_range (sz : IntSize) (v : Z) : Prop :=
  minInt sz <= v <= maxInt sz.

(** The largest magnitude [ParseUint] accepts for the size. *)
Definition maxUint (sz : IntSize) : Z := 2 ^ bits sz - 1.

(** The error value that comes with each outcome of [Atoi]. *)
Definition Atoi_error_value (sz : IntSize) (e : NumError) (neg : bool) : Z :=
  match e with
  | ErrSyntax => 0
  | ErrRange => if neg then minInt sz else maxInt sz
  end.

Definition in_int_rangeb (sz : IntSize) (v : Z) : bool :=
  (minInt sz <=? v) && (v <=? maxInt sz).

(** What [ParseInt] and [Atoi] do with the result of [ParseUint]. *)
Definition Atoi_finish (sz : IntSize) (neg : bool) (r : Z * option NumError)
  : Z * option NumError :=
  let '(i64, err) :=
    match r with
    | (_, Some ErrSyntax) => (0, Some ErrSyntax)
    | (un, _) =>
        let cutoff := uint64 (Z.shiftl 1 (bits sz - 1)) in
        if negb neg && (cutoff <=? un) then (int64 (cutoff - 1), Some ErrRange)
        else if neg && (cutoff <? un) then (int64 (- int64 cutoff), Some ErrRange)
        else let n := int64 un in (if neg then int64 (- n) else n, None)
    end in
  (int sz i64, err).

(** The value of the decimal digits a string starts with, up to its
    first character that is not a digit. *)
Fixpoint leading_digits_value (acc : Z) (s : string) : Z :=
  match s with
  | EmptyString => acc
  | String c s' =>
      if is_digit c then leading_digits_value (10 * acc + (byte_of c - 48)) s'
      else acc
  end.

(** Whether a string starts with a minus sign, and the string without
    its sign. *)
Definition is_negative (s : string) : bool :=
  match s with
  | EmptyString => false
  | String c _ => Ascii.eqb c "-"
  end.

Definition unsigned_part (s : string) : string :=
  match s with
  | EmptyString => EmptyString
  | String c s' => if Ascii.eqb c "+" || Ascii.eqb c "-" then s' else s
  end.

End strconv.

(* ================================================================== *)
(** ** Package github.com/gorilla/sessions                             *)
(* ================================================================== *)

Module sessions.

(** A cookie store is made from its key pairs; [NewCookieStore] builds a
    fresh one from the keys it is given. *)
Record CookieStore : Type := { keyPairs : list string }.

Definition NewCookieStore (keys : list string) : CookieStore :=
  {| keyPairs := keys |}.

End sessions.

(* ================================================================== *)
(** ** Package auth                                                    *)
(* ================================================================== *)

Module auth.

(** The package-level variables of [auth/initialize.go]. [_cookieStore] is
    a pointer: [None] is nil. *)
Record State : Type := {
  _cookieSessName : string;
  _cookieStoreId : string;
  _cookieStore : option sessions.CookieStore;
  _cookiePath : string;
  _cookieDomain : string;
  _cookieMaxAge : Z;
  (** Modelled from the spec: the registry behind [auth.AddListener_DeAuth],
      whose source file is absent; listeners in registration order, and
      the same listener may occur twice. *)
  _deauthListeners : list (option Func)
}.

(** The variables before any assignment: Go's zero values. *)
Definition zero : State :=
  {| _cookieSessName := ""; _cookieStoreId := ""; _cookieStore := None;
     _cookiePath := ""; _cookieDomain := ""; _cookieMaxAge := 0;
     _deauthListeners := [] |}.

Definition set_cookieMaxAge (n : Z) (st : State) : State :=
  {| _cookieSessName := _cookieSessName st;
     _cookieStoreId := _cookieStoreId st;
     _cookieStore := _cookieStore st;
     _cookiePath := _cookiePath st;
     _cookieDomain := _cookieDomain st;
     _cookieMaxAge := n;
     _deauthListeners := _deauthListeners st |}.

Definition set_cookie (name id : string) (store : option sessions.CookieStore)
    (path domain : string) (st : State) : State :=
  {| _cookieSessName := name;
     _cookieStoreId := id;
     _cookieStore := store;
     _cookiePath := path;
     _cookieDomain := domain;
     _cookieMaxAge := _cookieMaxAge st;
     _deauthListeners := _deauthListeners st |}.

Definition err_empty_name : string :=
  "Auth cannot be configured with empty cookie session name".
Definition err_empty_store_id : string :=
  "Auth cannot be configured with empty cookie store id".
Definition err_max_age : string :=
  "Auth cannot be configured with cookie maxAge not integer".

(** [auth.Initialize]. The result of [Atoi] is assigned to [_cookieMaxAge]
    before its error is looked at. *)
Definition Initialize (sz : strconv.IntSize)
    (cookieSessName cookieStoreId cookiePath cookieDomain cookieMaxAge : string)
    (st : State) : State * error :=
  if (cookieSessName =? "")%string then (st, Some err_empty_name)
  else if (cookieStoreId =? "")%string then (st, Some err_empty_store_id)
  else
    let '(n, err) := strconv.Atoi sz cookieMaxAge in
    let st := set_cookieMaxAge n st in
    match err with
    | Some _ => (st, Some err_max_age)
    | None =>
        (set_cookie cookieSessName cookieStoreId
           (Some (sessions.NewCookieStore [cookieStoreId]))
           cookiePath cookieDomain st, None)
    end.

(** Modelled from the spec: [auth.AddListener_DeAuth], whose source file is
    absent. It registers a callback, with no de-duplication: the same
    listener registered twice is held twice. *)
Definition AddListener_DeAuth (listener : option Func) (st : State) : State :=
  {| _cookieSessName := _cookieSessName st;
     _cookieStoreId := _cookieStoreId st;
     _cookieStore := _cookieStore st;
     _cookiePath := _cookiePath st;
     _cookieDomain := _cookieDomain st;
     _cookieMaxAge := _cookieMaxAge st;
     _deauthListeners := _deauthListeners st ++ [listener] |}.

(** The cookie configuration: the six variables [Initialize] assigns. *)
Definition cookie_config (st : State)
  : string * string * option sessions.CookieStore * string * string * Z :=
  (_cookieSessName st, _cookieStoreId st, _cookieStore st,
   _cookiePath st, _cookieDomain st, _cookieMaxAge st).

End auth.

(* ================================================================== *)
(** ** Package api_ws                                                  *)
(* ================================================================== *)

Module api_ws.

Record State : Type := {
  _verGetter : option Func;
  _onPanic : option Func
}.

Definition zero : State := {| _verGetter := None; _onPanic := None |}.

Definition err_no_verGetter : string :=
  "Websocket handler needs Version Getter handler".
Definition err_no_onPanic : string :=
  "Websocket handler needs OnPanic handler".

(** [api_ws.Initialize] *)
Definition Initialize (verGetter onPanic : option Func) (st : State)
  : State * error :=
  match verGetter with
  | None => (st, Some err_no_verGetter)
  | Some _ =>
      match onPanic with
      | None => (st, Some err_no_onPanic)
      | Some _ => ({| _verGetter := verGetter; _onPanic := onPanic |}, None)
      end
  end.

(** The package's [CloseAuthdConn], taken as a func value. *)
Definition CloseAuthdConn : option Func :=
  Some (FuncRef "api_ws.CloseAuthdConn").

(** Whether a call of [Initialize] has both its arguments. *)
Definition both_given (call : option Func * option Func) : bool :=
  match call with
  | (Some _, Some _) => true
  | _ => false
  end.

(** Calls of [Initialize] one after the other, each given as its pair of
    arguments; the errors are dropped. *)
Definition Initialize_each (calls : list (option Func * option Func))
    (st : State) : State :=
  fold_left (fun st call => fst (Initialize (fst call) (snd call) st)) calls st.

End api_ws.

(* ================================================================== *)
(** ** Package github.com/deze333/reseer: the version watcher          *)
(* ================================================================== *)

Module reseer.

Record Seer : Type := {
  trackFile : string;
  notify : string;
  onChange : option Func;
  versionTxt : string;
  running : bool
}.

Definition VersionTxt (w : Seer) : string := versionTxt w.

(** Modelled from the spec: the watcher's [Stop], a library outside this
    repository. It stops the tracker; stopping a stopped tracker is a
    no-op, not an error. *)
Definition Stop (w : Seer) : Seer :=
  {| trackFile := trackFile w; notify := notify w; onChange := onChange w;
     versionTxt := versionTxt w; running := false |}.

End reseer.

(* ================================================================== *)
(** ** Package util: the summary table                                 *)
(* ================================================================== *)

Module util.

Inductive Line : Type :=
| TextLine (cols : list string)
| BlankLine.

(** Modelled from the spec: [util.Summary], whose source file is absent. A
    summary is a title, the column names, and its lines in the order they
    were added. *)
Record Summary : Type := {
  title : string;
  header : list string;
  lines : list Line
}.

Definition NewSummary (title : string) (header : list string) : Summary :=
  {| title := title; header := header; lines := [] |}.

Definition AddLine (cols : list string) (summ : Summary) : Summary :=
  {| title := title summ; header := header summ;
     lines := lines summ ++ [TextLine cols] |}.

Definition AddBlankLine (summ : Summary) : Summary :=
  {| title := title summ; header := header summ;
     lines := lines summ ++ [BlankLine] |}.

(** *** Identifiers: the file of the package with [NewID] and [NewUUID] *)

(** The package-level variables [_baseID] and [_lastID], both [int64]. *)
Record IDs : Type := {
  _baseID : Z;
  _lastID : Z
}.

Definition zero_IDs : IDs := {| _baseID := 0; _lastID := 0 |}.

Definition set_baseID (v : Z) (st : IDs) : IDs :=
  {| _baseID := v; _lastID := _lastID st |}.

Definition set_lastID (v : Z) (st : IDs) : IDs :=
  {| _baseID := _baseID st; _lastID := v |}.

(** [init]. [rand63] is what [randGen.Int63()] returns, the generator
    being seeded from the clock; the assignment that follows overrides
    it. *)
Definition init (rand63 : Z) : IDs :=
  let st := set_baseID rand63 zero_IDs in
  let st := set_baseID 0 st in
  set_lastID (_baseID st) st.

(** [NewID]: [atomic.AddInt64(&_lastID, 1)] adds with wrap-around, stores
    the sum and returns it. *)
Definition NewID (st : IDs) : IDs * Z :=
  let v := strconv.int64 (_lastID st + 1) in
  (set_lastID v st, v).

(** The decimal text of an [int64], with a minus sign when negative. *)
Definition itoa (v : Z) : string :=
  DecimalString.NilEmpty.string_of_int (Z.to_int v).

(** [fmt.Sprintf("%s", v)] for [v] of type [int64]: the verb does not fit
    the type, and [fmt] writes the verb, the type and the value. *)
Definition Sprintf_s_int64 (v : Z) : string :=
  "%!s(int64=" ++ itoa v ++ ")".

(** [NewUUID]. [uuidgen] is what [exec.Command("uuidgen").Output()]
    returns: the bytes the command wrote, and the error. *)
Definition NewUUID (uuidgen : string * error) (st : IDs) : IDs * string :=
  let '(out, err) := uuidgen in
  match err with
  | Some _ => let '(st, id) := NewID st in (st, Sprintf_s_int64 id)
  | None => (st, out)
  end.

(** [n] calls of [NewID] in a row, with what they returned, in order. *)
Fixpoint NewID_times (n : nat) (st : IDs) : IDs * list Z :=
  match n with
  | O => (st, [])
  | S n' =>
      let '(st, id) := NewID st in
      let '(st, ids) := NewID_times n' st in
      (st, id :: ids)
  end.

(** Calls of [NewUUID] in a row, one for each outcome of the command. *)
Fixpoint NewUUID_each (outcomes : list (string * error)) (st : IDs)
  : IDs * list string :=
  match outcomes with
  | [] => (st, [])
  | o :: outcomes' =>
      let '(st, u) := NewUUID o st in
      let '(st, us) := NewUUID_each outcomes' st in
      (st, u :: us)
  end.

End util.

(* ================================================================== *)
(** ** Package github.com/gorilla/mux: the router                      *)
(* ================================================================== *)

Module mux.

Section Router.

Variable Handler : Type.

(** Whether a route's path template accepts a request path: the library's
    matcher. *)
Variable matches : string -> string -> bool.

(** A router holds its routes in registration order and an optional
    handler for requests no route accepts. *)
Record Router : Type := {
  routes : list (string * Handler);
  NotFoundHandler : option Handler
}.

Definition NewRouter : Router := {| routes := []; NotFoundHandler := None |}.

(** [router.HandleFunc(path, f)] registers a new route after the others. *)
Definition HandleFunc (path : string) (f : Handler) (r : Router) : Router :=
  {| routes := routes r ++ [(path, f)];
     NotFoundHandler := NotFoundHandler r |}.

Definition set_NotFoundHandler (f : Handler) (r : Router) : Router :=
  {| routes := routes r; NotFoundHandler := Some f |}.

(** The first route, in registration order, that accepts the path. *)
Fixpoint first_match (rs : list (string * Handler)) (path : string)
  : option Handler :=
  match rs with
  | [] => None
  | (tpl, f) :: rs' => if matches tpl path then Some f else first_match rs' path
  end.

(** [router.Match]: the handler of the first matching route; when no route
    matches, [NotFoundHandler] if it is set; otherwise no match. *)
Definition Match (r : Router) (path : string) : option Handler :=
  match first_match (routes r) path with
  | Some f => Some f
  | None => NotFoundHandler r
  end.

End Router.

Arguments routes {Handler} _.
Arguments NotFoundHandler {Handler} _.
Arguments NewRouter {Handler}.
Arguments HandleFunc {Handler} _ _ _.
Arguments set_NotFoundHandler {Handler} _ _.
Arguments first_match {Handler} _ _ _.
Arguments Match {Handler} _ _ _.

End mux.

(* ================================================================== *)
(** ** Package api_http                                                *)
(* ================================================================== *)

Module api_http.

(** *** The context handed to [Initialize]

    The declarations of [Ctx] and of the types of its fields are in a
    file of the package that is absent; the fields are those
    [initialize.go] reads. The handler tables that the code ranges over
    with [for r, h := range] are Go maps from route to handler: a table is
    given as the list of its entries in the order the [range] statement
    visits them. *)

(** A handler of type [H]: a func value, possibly nil. *)
Definition H : Type := option Func.

(** The procedures of a websocket route. *)
Inductive WSProcs : Type := ProcsRef (name : string).

Record AuthParams : Type := {
  CookieName : string;
  CookieStoreId : string;
  CookiePath : string;
  CookieDomain : string;
  CookieMaxAge : string
}.

Record Dirs : Type := {
  VersionFileDir : string;
  AppWatchNotify : string
}.

Record WSRoute : Type := {
  URL : string;
  Procs : WSProcs
}.

Record HandlersHTML : Type := {
  HTML_Public : list (string * H);
  HTML_Authd : list (string * H);
  HTML_NotFound : H
}.

Record HandlersXHR : Type := {
  XHR_Public : list (string * H);
  XHR_Authd : list (string * H)
}.

Record HandlersWS : Type := {
  WS_Public : list WSRoute;
  WS_Authd : list WSRoute
}.

Record HandlersFILE : Type := {
  FILE_Public : list (string * H)
}.

Record Ctx : Type := {
  Auth : AuthParams;
  CtxDirs : Dirs;
  OnPanic : option Func;
  Handlers_HTML : HandlersHTML;
  Handlers_XHR : HandlersXHR;
  Handlers_WS : HandlersWS;
  Handlers_FILE : HandlersFILE
}.

(** The zero value of [Ctx]. *)
Definition zero_Ctx : Ctx :=
  {| Auth := {| CookieName := ""; CookieStoreId := ""; CookiePath := "";
                CookieDomain := ""; CookieMaxAge := "" |};
     CtxDirs := {| VersionFileDir := ""; AppWatchNotify := "" |};
     OnPanic := None;
     Handlers_HTML := {| HTML_Public := []; HTML_Authd := [];
                         HTML_NotFound := None |};
     Handlers_XHR := {| XHR_Public := []; XHR_Authd := [] |};
     Handlers_WS := {| WS_Public := []; WS_Authd := [] |};
     Handlers_FILE := {| FILE_Public := [] |} |}.

(** The address [&wsr] of the variable of a loop over websocket routes. A
    [for ... range] statement has one variable for all its iterations (Go
    before 1.22, the language of this code), so the addresses taken in one
    loop are one address: [at_call] is the route the variable holds when
    the address is taken, [at_end] the route it holds once the loop is
    over, the last one visited. *)
Record WSRoutePtr : Type := {
  at_call : WSRoute;
  at_end : WSRoute
}.

(** The handlers given to the router are closures built by the package's
    [makeHandler_HTML], [makeHandler_XHR], [makeHandler_WS] and
    [makeHandler_NotFound], whose bodies are absent: a closure is
    represented by the function that built it and the values it
    captured. *)
Inductive HandlerFunc : Type :=
| makeHandler_HTML (ctx : Ctx) (h : H) (authd : bool)
| makeHandler_XHR (ctx : Ctx) (h : H) (authd : bool)
| makeHandler_WS (ctx : Ctx) (wsr : WSRoutePtr) (authd : bool)
| makeHandler_NotFound (ctx : Ctx) (h : H).

Definition Router : Type := mux.Router HandlerFunc.

(** The [interface{}] argument of [addSumm]: a handler or the procedures
    of a websocket route. *)
Inductive Obj : Type :=
| ObjH (h : H)
| ObjProcs (p : WSProcs).

(** Func values of the package that [Initialize] passes on. *)
Definition onAppVersionChanged : option Func :=
  Some (FuncRef "api_http.onAppVersionChanged").
Definition GetVersion : option Func :=
  Some (FuncRef "api_http.GetVersion").

(** *** What the package's surroundings decide

    The functions [initialize.go] calls and whose code is not at hand:
    library functions, and functions of absent files of the
    repository. *)
Record World : Type := {
  (** [auth.Initialize] as [Initialize_Auth] calls it, with six arguments,
      the last one the panic handler. [auth/initialize.go] has the
      function with five parameters; the one with six is not at hand. It
      works on the state of package [auth] and returns an error. *)
  auth_Initialize :
    string -> string -> string -> string -> string -> option Func ->
    auth.State -> auth.State * error;
  (** [path.Join] *)
  path_Join : string -> string -> string;
  (** [reseer.New]: the watcher, possibly nil, and the error *)
  reseer_New : string -> string -> option Func -> option reseer.Seer * error;
  (** the error [reqres.Initialize] returns *)
  reqres_Initialize : option Func -> error;
  (** the error [api_xhr.Initialize] returns *)
  api_xhr_Initialize : option Func -> error;
  (** [routeSynonyms] of the package *)
  routeSynonyms : string -> list string;
  (** [util.GetFuncInfo] *)
  GetFuncInfo : Obj -> list string;
  (** the router's path matcher: template, then request path *)
  route_matches : string -> string -> bool
}.

(** *** State

    The package-level variables of [api_http], the state of the packages
    it initialises, the routes of [net/http]'s default multiplexer, and
    what was printed on standard output. *)
Record State : Type := {
  auth_pkg : auth.State;
  api_ws_pkg : api_ws.State;
  (** the calls [reqres.Initialize] and [api_xhr.Initialize] received *)
  reqres_calls : list (option Func);
  api_xhr_calls : list (option Func);
  _ctx : Ctx;
  _versionWatcher : option reseer.Seer;
  (** Modelled from the spec: the application version that the absent
      [setAppVersion] replaces. *)
  _appVersion : string;
  DefaultServeMux : list (string * Router);
  stdout : list util.Summary
}.

Definition zero : State :=
  {| auth_pkg := auth.zero; api_ws_pkg := api_ws.zero;
     reqres_calls := []; api_xhr_calls := [];
     _ctx := zero_Ctx; _versionWatcher := None; _appVersion := "";
     DefaultServeMux := []; stdout := [] |}.

Definition set_auth_pkg (a : auth.State) (st : State) : State :=
  {| auth_pkg := a; api_ws_pkg := api_ws_pkg st;
     reqres_calls := reqres_calls st; api_xhr_calls := api_xhr_calls st;
     _ctx := _ctx st; _versionWatcher := _versionWatcher st;
     _appVersion := _appVersion st;
     DefaultServeMux := DefaultServeMux st; stdout := stdout st |}.

Definition set_api_ws_pkg (w : api_ws.State) (st : State) : State :=
  {| auth_pkg := auth_pkg st; api_ws_pkg := w;
     reqres_calls := reqres_calls st; api_xhr_calls := api_xhr_calls st;
     _ctx := _ctx st; _versionWatcher := _versionWatcher st;
     _appVersion := _appVersion st;
     DefaultServeMux := DefaultServeMux st; stdout := stdout st |}.

Definition set_reqres_calls (l : list (option Func)) (st : State) : State :=
  {| auth_pkg := auth_pkg st; api_ws_pkg := api_ws_pkg st;
     reqres_calls := l; api_xhr_calls := api_xhr_calls st;
     _ctx := _ctx st; _versionWatcher := _versionWatcher st;
     _appVersion := _appVersion st;
     DefaultServeMux := DefaultServeMux st; stdout := stdout st |}.

Definition set_api_xhr_calls (l : list (option Func)) (st : State) : State :=
  {| auth_pkg := auth_pkg st; api_ws_pkg := api_ws_pkg st;
     reqres_calls := reqres_calls st; api_xhr_calls := l;
     _ctx := _ctx st; _versionWatcher := _versionWatcher st;
     _appVersion := _appVersion st;
     DefaultServeMux := DefaultServeMux st; stdout := stdout st |}.

Definition set_ctx (c : Ctx) (st : State) : State :=
  {| auth_pkg := auth_pkg st; api_ws_pkg := api_ws_pkg st;
     reqres_calls := reqres_calls st; api_xhr_calls := api_xhr_calls st;
     _ctx := c; _versionWatcher := _versionWatcher st;
     _appVersion := _appVersion st;
     DefaultServeMux := DefaultServeMux st; stdout := stdout st |}.

Definition set_versionWatcher (w : option reseer.Seer) (st : State) : State :=
  {| auth_pkg := auth_pkg st; api_ws_pkg := api_ws_pkg st;
     reqres_calls := reqres_calls st; api_xhr_calls := api_xhr_calls st;
     _ctx := _ctx st; _versionWatcher := w;
     _appVersion := _appVersion st;
     DefaultServeMux := DefaultServeMux st; stdout := stdout st |}.

Definition set_appVersion (v : string) (st : State) : State :=
  {| auth_pkg := auth_pkg st; api_ws_pkg := api_ws_pkg st;
     reqres_calls := reqres_calls st; api_xhr_calls := api_xhr_calls st;
     _ctx := _ctx st; _versionWatcher := _versionWatcher st;
     _appVersion := v;
     DefaultServeMux := DefaultServeMux st; stdout := stdout st |}.

Definition set_DefaultServeMux (m : list (string * Router)) (st : State)
  : State :=
  {| auth_pkg := auth_pkg st; api_ws_pkg := api_ws_pkg st;
     reqres_calls := reqres_calls st; api_xhr_calls := api_xhr_calls st;
     _ctx := _ctx st; _versionWatcher := _versionWatcher st;
     _appVersion := _appVersion st;
     DefaultServeMux := m; stdout := stdout st |}.

Definition set_stdout (o : list util.Summary) (st : State) : State :=
  {| auth_pkg := auth_pkg st; api_ws_pkg := api_ws_pkg st;
     reqres_calls := reqres_calls st; api_xhr_calls := api_xhr_calls st;
     _ctx := _ctx st; _versionWatcher := _versionWatcher st;
     _appVersion := _appVersion st;
     DefaultServeMux := DefaultServeMux st; stdout := o |}.

(** *** The monad of the package's functions: state, and panics *)

Inductive Result (A : Type) : Type :=
| Ok (a : A) (st : State)
| Panic (msg : string).

Arguments Ok {A} _ _.
Arguments Panic {A} _.

Definition M (A : Type) : Type := State -> Result A.

Definition ret {A} (a : A) : M A := fun st => Ok a st.

Definition bind {A B} (c : M A) (k : A -> M B) : M B :=
  fun st =>
    match c st with
    | Ok a st' => k a st'
    | Panic msg => Panic msg
    end.

Definition panic {A} (msg : string) : M A := fun _ => Panic msg.

Definition modify (f : State -> State) : M unit := fun st => Ok tt (f st).

Definition gets {A} (f : State -> A) : M A := fun st => Ok (f st) st.

Declare Scope go_scope.
Delimit Scope go_scope with go.
Notation "x <- c ;; k" := (bind c (fun x => k))
  (at level 61, c at next level, right associativity) : go_scope.
Notation "c ;; k" := (bind c (fun _ => k))
  (at level 61, right associativity) : go_scope.
(** [if err != nil { return }] *)
Notation "'return_if_err' err ;; k" :=
  (match err with Some _ => ret err | None => k end)
  (at level 61, err at next level, right associativity) : go_scope.

Local Open Scope go_scope.

(** A call into package [auth] or [api_ws]. *)
Definition in_auth {A} (f : auth.State -> auth.State * A) : M A :=
  fun st => let '(a, r) := f (auth_pkg st) in Ok r (set_auth_pkg a st).

Definition in_api_ws {A} (f : api_ws.State -> api_ws.State * A) : M A :=
  fun st => let '(w, r) := f (api_ws_pkg st) in Ok r (set_api_ws_pkg w st).

(** Whether the default multiplexer has a handler for the pattern. *)
Definition registered (pattern : string) (st : State) : bool :=
  existsb (fun e => (fst e =? pattern)%string) (DefaultServeMux st).

(** [http.Handle(pattern, handler)] on the default multiplexer, which
    panics when the pattern is registered already. *)
Definition http_Handle (pattern : string) (handler : Router) : M unit :=
  fun st =>
    if registered pattern st
    then Panic "http: multiple registrations"
    else Ok tt (set_DefaultServeMux
                  (DefaultServeMux st ++ [(pattern, handler)]) st).

(** [fmt.Println(summ)] *)
Definition fmt_Println (summ : util.Summary) : M unit :=
  modify (fun st => set_stdout (stdout st ++ [summ]) st).

(** Modelled from the spec: [setAppVersion], whose source file is absent;
    it replaces the text of the application version. *)
Definition setAppVersion (v : string) : M unit :=
  modify (set_appVersion v).

Section Package.

Variable W : World.

Definition err_cookie_name : string := "Cookie name must be specified".
Definition err_cookie_store_id : string := "Cookie store ID must be specified".
Definition err_no_OnPanic : string := "OnPanic handler must be provided".

(** [Initialize_Auth]. The callee is the six-parameter [auth.Initialize]
    of the world, given the six arguments of the call. *)
Definition Initialize_Auth (ctx : Ctx) : M error :=
  let params := Auth ctx in
  if (CookieName params =? "")%string then ret (Some err_cookie_name)
  else if (CookieStoreId params =? "")%string then ret (Some err_cookie_store_id)
  else
    err <- in_auth (auth_Initialize W
                      (CookieName params) (CookieStoreId params)
                      (CookiePath params) (CookieDomain params)
                      (CookieMaxAge params) (OnPanic ctx)) ;;
    in_auth (fun a => (auth.AddListener_DeAuth api_ws.CloseAuthdConn a, tt)) ;;
    ret err.

(** [Initialize_Dirs]. Both results of [reseer.New] are assigned before
    the error is looked at; [VersionTxt] is called through the pointer. *)
Definition Initialize_Dirs (dirs : Dirs) : M error :=
  let '(w, err) :=
    reseer_New W (path_Join W (VersionFileDir dirs) "reseer_track.csv")
      (AppWatchNotify dirs) onAppVersionChanged in
  modify (set_versionWatcher w) ;;
  match err with
  | None =>
      match w with
      | Some seer => setAppVersion (reseer.VersionTxt seer)
      | None => panic "nil pointer dereference"
      end
  | Some _ => ret tt
  end ;;
  ret err.

(** [Initialize_ReqRes] *)
Definition Initialize_ReqRes (ctx : Ctx) : M error :=
  modify (fun st => set_reqres_calls (reqres_calls st ++ [OnPanic ctx]) st) ;;
  ret (reqres_Initialize W (OnPanic ctx)).

(** [Initialize_WS] *)
Definition Initialize_WS (ctx : Ctx) : M error :=
  in_api_ws (api_ws.Initialize GetVersion (OnPanic ctx)).

(** [Initialize_XHR] *)
Definition Initialize_XHR (ctx : Ctx) : M error :=
  modify (fun st => set_api_xhr_calls (api_xhr_calls st ++ [OnPanic ctx]) st) ;;
  ret (api_xhr_Initialize W (OnPanic ctx)).

(** [addSumm] *)
Definition addSumm (summ : util.Summary) (descr route : string) (obj : Obj)
  : util.Summary :=
  util.AddLine ([descr; route] ++ GetFuncInfo W obj) summ.

(** [makeRouteHandlers]. [router] and [summ] are pointers in the source:
    the function returns what they point to afterwards. The loop variable
    shadows [r]; the summary line, after the loop, has the route given. *)
Definition makeRouteHandlers (ctx : Ctx) (router : Router) (r : string) (h : H)
    (authd : bool) (descr : string) (summ : util.Summary)
  : Router * util.Summary :=
  let router :=
    fold_left
      (fun router r => mux.HandleFunc r (makeHandler_HTML ctx h authd) router)
      (routeSynonyms W r) router in
  (router, addSumm summ descr r (ObjH h)).

(** The body of a loop over a table of XHR or FILE routes. *)
Definition add_route (descr : string) (mk : H -> HandlerFunc)
    (acc : Router * util.Summary) (e : string * H) : Router * util.Summary :=
  let '(router, summ) := acc in
  let '(r, h) := e in
  let summ := addSumm summ descr r (ObjH h) in
  (mux.HandleFunc r (mk h) router, summ).

(** The address of the variable of the loop over [tbl], taken while the
    variable holds [wsr]. *)
Definition loop_var_ptr (tbl : list WSRoute) (wsr : WSRoute) : WSRoutePtr :=
  {| at_call := wsr; at_end := last tbl wsr |}.

(** The body of the loop over the list [tbl] of websocket routes; the
    handler is made from [&wsr]. *)
Definition add_ws_route (ctx : Ctx) (descr : string) (authd : bool)
    (tbl : list WSRoute)
    (acc : Router * util.Summary) (wsr : WSRoute) : Router * util.Summary :=
  let '(router, summ) := acc in
  let summ := addSumm summ descr (URL wsr) (ObjProcs (Procs wsr)) in
  (mux.HandleFunc (URL wsr) (makeHandler_WS ctx (loop_var_ptr tbl wsr) authd)
     router,
   summ).

Definition blank (acc : Router * util.Summary) : Router * util.Summary :=
  (fst acc, util.AddBlankLine (snd acc)).

(** The router and the summary that [Initialize_Router] builds before it
    installs the one and prints the other. *)
Definition build_router (ctx : Ctx) : Router * util.Summary :=
  let summ := util.NewSummary "Registered HTTP routes"
                ["Type"; "Route"; "Handler"; "Package"] in
  let router : Router := mux.NewRouter in
  let acc := (router, summ) in
  (* HTML Public routes *)
  let acc := fold_left
      (fun acc e => makeRouteHandlers ctx (fst acc) (fst e) (snd e) false
                      "HTML Public" (snd acc))
      (HTML_Public (Handlers_HTML ctx)) acc in
  let acc := blank acc in
  (* HTML Authd routes *)
  let acc := fold_left
      (fun acc e => makeRouteHandlers ctx (fst acc) (fst e) (snd e) true
                      "HTML Authd" (snd acc))
      (HTML_Authd (Handlers_HTML ctx)) acc in
  let acc := blank acc in
  (* XHR Public routes *)
  let acc := fold_left
      (add_route "XHR Public" (fun h => makeHandler_XHR ctx h false))
      (XHR_Public (Handlers_XHR ctx)) acc in
  let acc := blank acc in
  (* XHR Authd routes *)
  let acc := fold_left
      (add_route "XHR Authd" (fun h => makeHandler_XHR ctx h true))
      (XHR_Authd (Handlers_XHR ctx)) acc in
  let acc := blank acc in
  (* WS Public routes *)
  let acc := fold_left
      (add_ws_route ctx "WS Public" false (WS_Public (Handlers_WS ctx)))
      (WS_Public (Handlers_WS ctx)) acc in
  let acc := blank acc in
  (* WS Authd routes *)
  let acc := fold_left
      (add_ws_route ctx "WS Authd" true (WS_Authd (Handlers_WS ctx)))
      (WS_Authd (Handlers_WS ctx)) acc in
  let acc := blank acc in
  (* FILE Public routes *)
  let acc := fold_left
      (add_route "FILE Public" (fun h => makeHandler_HTML ctx h false))
      (FILE_Public (Handlers_FILE ctx)) acc in
  let acc := blank acc in
  (* Set default not found router *)
  let notFoundH := HTML_NotFound (Handlers_HTML ctx) in
  let router := mux.set_NotFoundHandler (makeHandler_NotFound ctx notFoundH)
                  (fst acc) in
  let summ := addSumm (snd acc) "HTML Not Found" "*" (ObjH notFoundH) in
  let summ := util.AddBlankLine summ in
  (router, summ).

(** [Initialize_Router] *)
Definition Initialize_Router (ctx : Ctx) : M error :=
  let '(router, summ) := build_router ctx in
  (* Set Gorilla Mux as root router *)
  http_Handle "/" router ;;
  (* Output summary *)
  fmt_Println summ ;;
  ret None.

(** [Initialize] *)
Definition Initialize (ctx : Ctx) : M error :=
  (* Authentication *)
  err <- Initialize_Auth ctx ;;
  return_if_err err ;;
  (* Directories *)
  err <- Initialize_Dirs (CtxDirs ctx) ;;
  return_if_err err ;;
  (* On Panic *)
  match OnPanic ctx with
  | None => ret (Some err_no_OnPanic)
  | Some _ =>
      (* ReqRes *)
      err <- Initialize_ReqRes ctx ;;
      return_if_err err ;;
      (* XHR *)
      err <- Initialize_XHR ctx ;;
      return_if_err err ;;
      (* Websocket *)
      err <- Initialize_WS ctx ;;
      return_if_err err ;;
      (* Router *)
      err <- Initialize_Router ctx ;;
      return_if_err err ;;
      (* Success, remember context *)
      modify (set_ctx ctx) ;;
      ret None
  end.

(** [_versionWatcher.Stop()]: a call through the pointer. *)
Definition versionWatcher_Stop : M unit :=
  fun st =>
    match _versionWatcher st with
    | Some w => Ok tt (set_versionWatcher (Some (reseer.Stop w)) st)
    | None => Panic "nil pointer dereference"
    end.

(** [DeInitialize] *)
Definition DeInitialize : M unit :=
  w <- gets _versionWatcher ;;
  match w with
  | Some _ => versionWatcher_Stop
  | None => ret tt
  end.

(** *** Vocabulary of the properties *)

(** The call of [auth.Initialize] that [Initialize_Auth] makes for a
    context. *)
Definition call_auth_Initialize (ctx : Ctx) : auth.State -> auth.State * error :=
  auth_Initialize W
    (CookieName (Auth ctx)) (CookieStoreId (Auth ctx))
    (CookiePath (Auth ctx)) (CookieDomain (Auth ctx))
    (CookieMaxAge (Auth ctx)) (OnPanic ctx).

(** The steps of [Initialize], in order; the third is the check of
    [ctx.OnPanic] that [Initialize] makes itself. *)
Definition check_OnPanic (ctx : Ctx) : M error :=
  match OnPanic ctx with
  | None => ret (Some err_no_OnPanic)
  | Some _ => ret None
  end.

Definition steps (ctx : Ctx) : list (M error) :=
  [ Initialize_Auth ctx; Initialize_Dirs (CtxDirs ctx); check_OnPanic ctx;
    Initialize_ReqRes ctx; Initialize_XHR ctx; Initialize_WS ctx;
    Initialize_Router ctx ].

(** Running steps one after the other, as long as none returns an error. *)
Fixpoint run_steps (l : list (M error)) : M error :=
  match l with
  | [] => ret None
  | step :: l' => err <- step ;; return_if_err err ;; run_steps l'
  end.

(** The line of the summary for a route. *)
Definition summ_line (descr route : string) (obj : Obj) : util.Line :=
  util.TextLine ([descr; route] ++ GetFuncInfo W obj).

Definition table_lines (descr : string) (tbl : list (string * H))
  : list util.Line :=
  map (fun e => summ_line descr (fst e) (ObjH (snd e))) tbl.

Definition ws_lines (descr : string) (tbl : list WSRoute) : list util.Line :=
  map (fun wsr => summ_line descr (URL wsr) (ObjProcs (Procs wsr))) tbl.

(** The lines of the startup summary, read off the tables of the context:
    one line per entry, group after group, a blank line after each. *)
Definition summary_lines (ctx : Ctx) : list util.Line :=
  table_lines "HTML Public" (HTML_Public (Handlers_HTML ctx)) ++ [util.BlankLine] ++
  table_lines "HTML Authd" (HTML_Authd (Handlers_HTML ctx)) ++ [util.BlankLine] ++
  table_lines "XHR Public" (XHR_Public (Handlers_XHR ctx)) ++ [util.BlankLine] ++
  table_lines "XHR Authd" (XHR_Authd (Handlers_XHR ctx)) ++ [util.BlankLine] ++
  ws_lines "WS Public" (WS_Public (Handlers_WS ctx)) ++ [util.BlankLine] ++
  ws_lines "WS Authd" (WS_Authd (Handlers_WS ctx)) ++ [util.BlankLine] ++
  table_lines "FILE Public" (FILE_Public (Handlers_FILE ctx)) ++ [util.BlankLine] ++
  [summ_line "HTML Not Found" "*" (ObjH (HTML_NotFound (Handlers_HTML ctx)));
   util.BlankLine].

(** The routes an HTML route and its synonyms stand for. *)
Definition synonym_routes (ctx : Ctx) (authd : bool) (e : string * H)
  : list (string * HandlerFunc) :=
  map (fun p => (p, makeHandler_HTML ctx (snd e) authd)) (routeSynonyms W (fst e)).

(** The routes of a list of websocket routes: each under its own URL,
    with the handler made from the address of the loop's variable. *)
Definition ws_routes (ctx : Ctx) (authd : bool) (tbl : list WSRoute)
  : list (string * HandlerFunc) :=
  map (fun wsr =>
         (URL wsr, makeHandler_WS ctx (loop_var_ptr tbl wsr) authd)) tbl.

(** The routes of the router, read off the tables of the context. *)
Definition router_routes (ctx : Ctx) : list (string * HandlerFunc) :=
  flat_map (synonym_routes ctx false) (HTML_Public (Handlers_HTML ctx)) ++
  flat_map (synonym_routes ctx true) (HTML_Authd (Handlers_HTML ctx)) ++
  map (fun e => (fst e, makeHandler_XHR ctx (snd e) false))
    (XHR_Public (Handlers_XHR ctx)) ++
  map (fun e => (fst e, makeHandler_XHR ctx (snd e) true))
    (XHR_Authd (Handlers_XHR ctx)) ++
  ws_routes ctx false (WS_Public (Handlers_WS ctx)) ++
  ws_routes ctx true (WS_Authd (Handlers_WS ctx)) ++
  map (fun e => (fst e, makeHandler_HTML ctx (snd e) false))
    (FILE_Public (Handlers_FILE ctx)).

End Package.

(** A router and a summary with routes and lines added at the end. *)
Definition extend (acc : Router * util.Summary)
    (rs : list (string * HandlerFunc)) (ls : list util.Line)
  : Router * util.Summary :=
  ({| mux.routes := mux.routes (fst acc) ++ rs;
      mux.NotFoundHandler := mux.NotFoundHandler (fst acc) |},
   {| util.title := util.title (snd acc);
      util.header := util.header (snd acc);
      util.lines := util.lines (snd acc) ++ ls |}).


(** The fields that only the last step of [Initialize], and its end,
    write. *)
Definition startup_untouched (st st' : State) : Prop :=
  DefaultServeMux st' = DefaultServeMux st /\
  stdout st' = stdout st /\
  _ctx st' = _ctx st.

(** A step that leaves those fields as they were. *)
Definition quiet (step : M error) : Prop :=
  forall st err st', step st = Ok err st' -> startup_untouched st st'.

(** *** A world and contexts for the examples *)

Definition sample_Seer : reseer.Seer :=
  {| reseer.trackFile := "app/reseer_track.csv"; reseer.notify := "";
     reseer.onChange := onAppVersionChanged;
     reseer.versionTxt := "v1"; reseer.running := true |}.

(** In [sample_World] the six-parameter [auth.Initialize] is a stand-in:
    the function of [auth/initialize.go], on 64-bit integers, which does
    nothing with the panic handler. *)
Definition sample_World : World :=
  {| auth_Initialize := fun name id path domain maxAge _ =>
       auth.Initialize strconv.Int64 name id path domain maxAge;
     path_Join := fun dir file => (dir ++ "/" ++ file)%string;
     reseer_New := fun _ _ _ => (Some sample_Seer, None);
     reqres_Initialize := fun onPanic =>
       match onPanic with None => Some "no OnPanic" | Some _ => None end;
     api_xhr_Initialize := fun onPanic =>
       match onPanic with None => Some "no OnPanic" | Some _ => None end;
     routeSynonyms := fun r =>
       if (r =? "/home")%string then ["/home"; "/"; "/index"] else [r];
     GetFuncInfo := fun obj =>
       match obj with
       | ObjH (Some (FuncRef name)) => [name; "app"]
       | ObjH None => ["nil"; ""]
       | ObjProcs (ProcsRef name) => [name; "app"]
       end;
     route_matches := String.eqb |}.

Definition h_home : H := Some (FuncRef "Home").
Definition h_account : H := Some (FuncRef "Account").
Definition h_notFound : H := Some (FuncRef "NotFound").

Definition sample_Auth : AuthParams :=
  {| CookieName := "sess"; CookieStoreId := "abc123"; CookiePath := "/";
     CookieDomain := ""; CookieMaxAge := "3600" |}.

Definition sample_Ctx : Ctx :=
  {| Auth := sample_Auth;
     CtxDirs := {| VersionFileDir := "app"; AppWatchNotify := "" |};
     OnPanic := Some (FuncRef "OnPanic");
     Handlers_HTML := {| HTML_Public := [("/home", h_home)];
                         HTML_Authd := [("/account", h_account)];
                         HTML_NotFound := h_notFound |};
     Handlers_XHR := {| XHR_Public := [("/xhr/ping", Some (FuncRef "Ping"))];
                        XHR_Authd := [] |};
     Handlers_WS := {| WS_Public := [];
                       WS_Authd := [{| URL := "/ws"; Procs := ProcsRef "Chat" |}] |};
     Handlers_FILE := {| FILE_Public := [] |} |}.

(** [sample_Ctx] with other authentication parameters, and without the
    panic handler. *)
Definition with_Auth (a : AuthParams) (ctx : Ctx) : Ctx :=
  {| Auth := a; CtxDirs := CtxDirs ctx; OnPanic := OnPanic ctx;
     Handlers_HTML := Handlers_HTML ctx; Handlers_XHR := Handlers_XHR ctx;
     Handlers_WS := Handlers_WS ctx; Handlers_FILE := Handlers_FILE ctx |}.

Definition without_OnPanic (ctx : Ctx) : Ctx :=
  {| Auth := Auth ctx; CtxDirs := CtxDirs ctx; OnPanic := None;
     Handlers_HTML := Handlers_HTML ctx; Handlers_XHR := Handlers_XHR ctx;
     Handlers_WS := Handlers_WS ctx; Handlers_FILE := Handlers_FILE ctx |}.

Definition no_name_Auth : AuthParams :=
  {| CookieName := ""; CookieStoreId := "abc123"; CookiePath := "/";
     CookieDomain := ""; CookieMaxAge := "3600" |}.

Definition bad_age_Auth : AuthParams :=
  {| CookieName := "sess"; CookieStoreId := "abc123"; CookiePath := "/";
     CookieDomain := ""; CookieMaxAge := "abc" |}.

(** [sample_World] with a watcher library that finds no directory. *)
Definition no_watcher_World : World :=
  {| auth_Initialize := auth_Initialize sample_World;
     path_Join := path_Join sample_World;
     reseer_New := fun _ _ _ => (None, Some "no such directory");
     reqres_Initialize := reqres_Initialize sample_World;
     api_xhr_Initialize := api_xhr_Initialize sample_World;
     routeSynonyms := routeSynonyms sample_World;
     GetFuncInfo := GetFuncInfo sample_World;
     route_matches := route_matches sample_World |}.

(** [sample_World] with a [reqres.Initialize] that fails. *)
Definition no_reqres_World : World :=
  {| auth_Initialize := auth_Initialize sample_World;
     path_Join := path_Join sample_World;
     reseer_New := reseer_New sample_World;
     reqres_Initialize := fun _ => Some "reqres: not ready";
     api_xhr_Initialize := api_xhr_Initialize sample_World;
     routeSynonyms := routeSynonyms sample_World;
     GetFuncInfo := GetFuncInfo sample_World;
     route_matches := route_matches sample_World |}.

(** [sample_World] with another stand-in for the six-parameter
    [auth.Initialize]: one that asks for the panic handler first, as
    [api_ws.Initialize] does, and goes on as the function of
    [auth/initialize.go]. *)
Definition strict_auth_World : World :=
  {| auth_Initialize := fun name id path domain maxAge onPanic st =>
       match onPanic with
       | None => (st, Some "Auth cannot be configured without panic handler")
       | Some _ => auth.Initialize strconv.Int64 name id path domain maxAge st
       end;
     path_Join := path_Join sample_World;
     reseer_New := reseer_New sample_World;
     reqres_Initialize := reqres_Initialize sample_World;
     api_xhr_Initialize := api_xhr_Initialize sample_World;
     routeSynonyms := routeSynonyms sample_World;
     GetFuncInfo := GetFuncInfo sample_World;
     route_matches := route_matches sample_World |}.

End api_http.

(* ================================================================== *)
(** * Properties                                                        *)
(* ================================================================== *)

(** ** strconv: [Atoi] against the decimal reading *)

Section AtoiFacts.

Import strconv.

Lemma byte_of_0 : byte_of "0" = 48.
Proof. reflexivity. Qed.

Lemma byte_of_9 : byte_of "9" = 57.
Proof. reflexivity. Qed.

Lemma pow64 : 2 ^ 64 = 18446744073709551616.
Proof. reflexivity. Qed.

Lemma cutoff10 : maxUint64 / 10 + 1 = 1844674407370955162.
Proof. reflexivity. Qed.

Lemma is_digit_bounds c : is_digit c = true -> 48 <= byte_of c <= 57.
Proof.
  unfold is_digit; intros H.
  apply andb_true_iff in H as [H1 H2].
  apply Z.leb_le in H1, H2. lia.
Qed.

Lemma digits_value_mono s : forall n v,
  0 <= n -> digits_value n s = Some v -> n <= v.
Proof.
  induction s as [|c s IH]; intros n v Hn H; cbn [digits_value] in H.
  - injection H as <-. lia.
  - destruct (is_digit c) eqn:D; [|discriminate].
    apply is_digit_bounds in D.
    apply IH in H; lia.
Qed.

Lemma ParseUint_loop_spec maxVal s : forall n,
  0 <= n <= maxVal -> maxVal <= maxUint64 ->
  match digits_value n s with
  | Some v =>
      ParseUint_loop (maxUint64 / 10 + 1) maxVal s n =
      if v <=? maxVal then (v, None) else (maxVal, Some ErrRange)
  | None =>
      exists e, ParseUint_loop (maxUint64 / 10 + 1) maxVal s n =
                (match e with ErrSyntax => 0 | ErrRange => maxVal end, Some e)
  end.
Proof.
  rewrite cutoff10. unfold maxUint64. rewrite pow64.
  induction s as [|c s IH]; intros n Hn Hmax.
  - simpl. destruct (Z.leb_spec n maxVal); [reflexivity | lia].
  - cbn [digits_value ParseUint_loop].
    rewrite byte_of_0, byte_of_9. fold (is_digit c).
    destruct (is_digit c) eqn:D.
    2:{ exists ErrSyntax. reflexivity. }
    apply is_digit_bounds in D.
    set (d := byte_of c - 48) in *.
    assert (Hd : 0 <= d <= 9) by (unfold d; lia).
    destruct (Z.leb_spec 1844674407370955162 n) as [Hc|Hc].
    + destruct (digits_value (10 * n + d) s) as [v|] eqn:E.
      * apply digits_value_mono in E; [|lia].
        destruct (Z.leb_spec v maxVal); [lia | reflexivity].
      * exists ErrRange. reflexivity.
    + assert (U1 : uint64 (n * 10) = n * 10).
      { unfold uint64. rewrite pow64. apply Z.mod_small. lia. }
      rewrite U1.
      destruct (Z.ltb_spec (uint64 (n * 10 + d)) (n * 10)) as [Hw|Hw]; cbn [orb].
      * assert (maxVal < 10 * n + d).
        { unfold uint64 in Hw. rewrite pow64 in Hw.
          destruct (Z.lt_ge_cases (n * 10 + d) 18446744073709551616) as [L|L].
          - rewrite Z.mod_small in Hw by lia. lia.
          - lia. }
        destruct (digits_value (10 * n + d) s) as [v|] eqn:E.
        -- apply digits_value_mono in E; [|lia].
           destruct (Z.leb_spec v maxVal); [lia | reflexivity].
        -- exists ErrRange. reflexivity.
      * assert (U2 : uint64 (n * 10 + d) = 10 * n + d).
        { unfold uint64 in *. rewrite pow64 in *.
          destruct (Z.lt_ge_cases (n * 10 + d) 18446744073709551616) as [L|L].
          - rewrite Z.mod_small by lia. lia.
          - exfalso.
            assert (n * 10 + d < 2 * 18446744073709551616) by lia.
            assert ((n * 10 + d) mod 18446744073709551616
                    = n * 10 + d - 18446744073709551616).
            { symmetry. apply Z.mod_unique with (q := 1); lia. }
            lia. }
        rewrite U2.
        destruct (Z.ltb_spec maxVal (10 * n + d)) as [Hm|Hm].
        -- destruct (digits_value (10 * n + d) s) as [v|] eqn:E.
           ++ apply digits_value_mono in E; [|lia].
              destruct (Z.leb_spec v maxVal); [lia | reflexivity].
           ++ exists ErrRange. reflexivity.
        -- apply IH; lia.
Qed.

Lemma ParseUint_spec sz s :
  match magnitude s with
  | Some v =>
      ParseUint sz s 0 =
      if v <=? maxUint sz then (v, None) else (maxUint sz, Some ErrRange)
  | None =>
      exists e, ParseUint sz s 0 =
                (match e with ErrSyntax => 0 | ErrRange => maxUint sz end, Some e)
  end.
Proof.
  destruct s as [|c s].
  - exists ErrSyntax. reflexivity.
  - unfold magnitude, ParseUint.
    replace ((String c s =? "")%string) with false by reflexivity.
    replace (uint64 (uint64 (Z.shiftl 1 (if 0 =? 0 then bits sz else 0)) - 1))
      with (maxUint sz) by (destruct sz; reflexivity).
    apply ParseUint_loop_spec; unfold maxUint, maxUint64;
      destruct sz; cbn [bits]; lia.
Qed.

Lemma in_int_rangeb_spec sz v :
  in_int_rangeb sz v = true <-> in_int_range sz v.
Proof.
  unfold in_int_rangeb, in_int_range.
  rewrite andb_true_iff, !Z.leb_le. tauto.
Qed.

Lemma Atoi_unfold sz c0 s' :
  Atoi sz (String c0 s') =
  Atoi_finish sz (Ascii.eqb c0 "-")
    (ParseUint sz (if Ascii.eqb c0 "+" || Ascii.eqb c0 "-" then s'
                   else String c0 s') 0).
Proof. reflexivity. Qed.

Lemma magnitude_nonneg t m : magnitude t = Some m -> 0 <= m.
Proof.
  destruct t; [discriminate|]. unfold magnitude.
  apply digits_value_mono. lia.
Qed.

Lemma Atoi_finish_range sz neg :
  Atoi_finish sz neg (maxUint sz, Some ErrRange) =
  (Atoi_error_value sz ErrRange neg, Some ErrRange).
Proof. destruct sz, neg; reflexivity. Qed.

Ltac eval_consts :=
  change (uint64 (Z.shiftl 1 (32 - 1))) with 2147483648 in *;
  change (uint64 (Z.shiftl 1 (64 - 1))) with 9223372036854775808 in *;
  change (2 ^ (32 - 1)) with 2147483648 in *;
  change (2 ^ (64 - 1)) with 9223372036854775808 in *;
  change (2 ^ 63) with 9223372036854775808 in *;
  change (2 ^ 32) with 4294967296 in *;
  change (2 ^ 64) with 18446744073709551616 in *.

Ltac split_tests :=
  repeat match goal with
  | |- context [Z.leb ?a ?b] => destruct (Z.leb_spec a b)
  | |- context [Z.ltb ?a ?b] => destruct (Z.ltb_spec a b)
  end; cbn [andb].

Ltac wrap_arith :=
  unfold int, int64; cbn [bits]; eval_consts;
  Z.div_mod_to_equations; lia.

Lemma Atoi_finish_spec sz (neg : bool) (t : string) :
  match magnitude t with
  | Some m =>
      let v := if neg then - m else m in
      Atoi_finish sz neg (ParseUint sz t 0) =
      if in_int_rangeb sz v then (v, None)
      else (Atoi_error_value sz ErrRange neg, Some ErrRange)
  | None =>
      exists e, Atoi_finish sz neg (ParseUint sz t 0) =
                (Atoi_error_value sz e neg, Some e)
  end.
Proof.
  pose proof (ParseUint_spec sz t) as H.
  destruct (magnitude t) as [m|] eqn:M.
  - apply magnitude_nonneg in M. rewrite H. clear H. cbv zeta.
    destruct (Z.leb_spec m (maxUint sz)) as [L|L].
    + unfold Atoi_finish, in_int_rangeb, minInt, maxInt, maxUint in *.
      destruct sz, neg; cbn [bits negb andb] in *; eval_consts;
        split_tests; try lia; try reflexivity; f_equal; wrap_arith.
    + rewrite Atoi_finish_range.
      unfold in_int_rangeb, minInt, maxInt, maxUint in *.
      destruct sz, neg; cbn [bits] in *; eval_consts;
        split_tests; try lia; reflexivity.
  - destruct H as [e H]. exists e. rewrite H.
    destruct e; [destruct sz; reflexivity | apply Atoi_finish_range].
Qed.

(** [Atoi] against the decimal reading of its argument: it returns the
    value and no error exactly on the literals of an integer in the range
    of [int]; on a literal out of range it returns the bound of that sign
    with a range error; on anything else it returns an error. *)
Theorem Atoi_spec sz s :
  match int_literal s with
  | Some v =>
      Atoi sz s =
      if in_int_rangeb sz v then (v, None)
      else (Atoi_error_value sz ErrRange (v <? 0), Some ErrRange)
  | None =>
      exists e neg, Atoi sz s = (Atoi_error_value sz e neg, Some e)
  end.
Proof.
  destruct s as [|c0 s'].
  - exists ErrSyntax, false. destruct sz; reflexivity.
  - rewrite Atoi_unfold. unfold int_literal.
    destruct (Ascii.eqb c0 "+") eqn:P.
    + apply Ascii.eqb_eq in P. subst c0. cbn [Ascii.eqb Bool.eqb andb orb].
      pose proof (Atoi_finish_spec sz false s') as H.
      destruct (magnitude s') as [m|] eqn:M.
      * cbv zeta in H. rewrite H.
        destruct (in_int_rangeb sz m) eqn:R; [reflexivity|].
        apply magnitude_nonneg in M.
        destruct (Z.ltb_spec m 0); [lia | reflexivity].
      * destruct H as [e H]. exists e, false. exact H.
    + destruct (Ascii.eqb c0 "-") eqn:N; cbn [orb].
      * pose proof (Atoi_finish_spec sz true s') as H.
        destruct (magnitude s') as [m|] eqn:M; cbn [option_map].
        -- cbv zeta in H. rewrite H.
           destruct (in_int_rangeb sz (- m)) eqn:R; [reflexivity|].
           apply magnitude_nonneg in M.
           destruct (Z.ltb_spec (- m) 0); [reflexivity|].
           assert (m = 0) by lia. subst m. destruct sz; discriminate.
        -- destruct H as [e H]. exists e, true. exact H.
      * pose proof (Atoi_finish_spec sz false (String c0 s')) as H.
        destruct (magnitude (String c0 s')) as [m|] eqn:M.
        -- cbv zeta in H. rewrite H.
           destruct (in_int_rangeb sz m) eqn:R; [reflexivity|].
           apply magnitude_nonneg in M.
           destruct (Z.ltb_spec m 0); [lia | reflexivity].
        -- destruct H as [e H]. exists e, false. exact H.
Qed.

Lemma Atoi_ok_iff sz s v :
  Atoi sz s = (v, None) <-> int_literal s = Some v /\ in_int_range sz v.
Proof.
  pose proof (Atoi_spec sz s) as H.
  rewrite <- in_int_rangeb_spec.
  destruct (int_literal s) as [w|].
  - destruct (in_int_rangeb sz w) eqn:R; rewrite H; split.
    + intros [= <-]. auto.
    + intros [[= <-] _]. reflexivity.
    + discriminate.
    + intros [[= <-] R']. congruence.
  - destruct H as (e & neg & H). rewrite H. split.
    + discriminate.
    + intros [? _]. discriminate.
Qed.

Lemma leading_digits_value_mono s : forall n,
  0 <= n -> n <= leading_digits_value n s.
Proof.
  induction s as [|c s IH]; intros n Hn; cbn [leading_digits_value]; [lia|].
  destruct (is_digit c) eqn:D; [|lia].
  apply is_digit_bounds in D.
  specialize (IH (10 * n + (byte_of c - 48))). lia.
Qed.

(** The digit loop, on any string: a range error as soon as the digits
    read exceed the largest value, whatever follows them; otherwise a
    syntax error at the first character that is not a digit. *)
Lemma ParseUint_loop_any maxVal s : forall n,
  0 <= n <= maxVal -> maxVal <= maxUint64 ->
  ParseUint_loop (maxUint64 / 10 + 1) maxVal s n =
  if maxVal <? leading_digits_value n s then (maxVal, Some ErrRange)
  else match digits_value n s with
       | Some v => (v, None)
       | None => (0, Some ErrSyntax)
       end.
Proof.
  rewrite cutoff10. unfold maxUint64. rewrite pow64.
  induction s as [|c s IH]; intros n Hn Hmax.
  - cbn. destruct (Z.ltb_spec maxVal n); [lia | reflexivity].
  - cbn [digits_value ParseUint_loop leading_digits_value].
    rewrite byte_of_0, byte_of_9. fold (is_digit c).
    destruct (is_digit c) eqn:D.
    2:{ destruct (Z.ltb_spec maxVal n); [lia | reflexivity]. }
    apply is_digit_bounds in D.
    set (d := byte_of c - 48) in *.
    assert (Hd : 0 <= d <= 9) by (unfold d; lia).
    pose proof (leading_digits_value_mono s (10 * n + d)) as Hm.
    destruct (Z.leb_spec 1844674407370955162 n) as [Hc|Hc].
    + destruct (Z.ltb_spec maxVal (leading_digits_value (10 * n + d) s));
        [reflexivity | lia].
    + assert (U1 : uint64 (n * 10) = n * 10).
      { unfold uint64. rewrite pow64. apply Z.mod_small. lia. }
      rewrite U1.
      destruct (Z.ltb_spec (uint64 (n * 10 + d)) (n * 10)) as [Hw|Hw];
        cbn [orb].
      * assert (maxVal < 10 * n + d).
        { unfold uint64 in Hw. rewrite pow64 in Hw.
          destruct (Z.lt_ge_cases (n * 10 + d) 18446744073709551616) as [L|L].
          - rewrite Z.mod_small in Hw by lia. lia.
          - lia. }
        destruct (Z.ltb_spec maxVal (leading_digits_value (10 * n + d) s));
          [reflexivity | lia].
      * assert (U2 : uint64 (n * 10 + d) = 10 * n + d).
        { unfold uint64 in *. rewrite pow64 in *.
          destruct (Z.lt_ge_cases (n * 10 + d) 18446744073709551616) as [L|L].
          - rewrite Z.mod_small by lia. lia.
          - exfalso.
            assert ((n * 10 + d) mod 18446744073709551616
                    = n * 10 + d - 18446744073709551616).
            { symmetry. apply Z.mod_unique with (q := 1); lia. }
            lia. }
        rewrite U2.
        destruct (Z.ltb_spec maxVal (10 * n + d)) as [Hx|Hx].
        -- destruct (Z.ltb_spec maxVal (leading_digits_value (10 * n + d) s));
             [reflexivity | lia].
        -- apply IH; lia.
Qed.

Lemma ParseUint_any sz s :
  ParseUint sz s 0 =
  if maxUint sz <? leading_digits_value 0 s then (maxUint sz, Some ErrRange)
  else match magnitude s with
       | Some v => (v, None)
       | None => (0, Some ErrSyntax)
       end.
Proof.
  destruct s as [|c s].
  - destruct sz; reflexivity.
  - unfold magnitude, ParseUint.
    replace ((String c s =? "")%string) with false by reflexivity.
    replace (uint64 (uint64 (Z.shiftl 1 (if 0 =? 0 then bits sz else 0)) - 1))
      with (maxUint sz) by (destruct sz; reflexivity).
    apply ParseUint_loop_any; unfold maxUint, maxUint64;
      destruct sz; cbn [bits]; lia.
Qed.

Lemma Atoi_by_parts sz s :
  Atoi sz s = Atoi_finish sz (is_negative s) (ParseUint sz (unsigned_part s) 0).
Proof.
  destruct s as [|c0 s']; [destruct sz; reflexivity|].
  rewrite Atoi_unfold. reflexivity.
Qed.

Lemma int_literal_by_parts s :
  int_literal s =
  option_map (fun m => if is_negative s then - m else m)
    (magnitude (unsigned_part s)).
Proof.
  destruct s as [|c s']; [reflexivity|].
  unfold int_literal, is_negative, unsigned_part.
  destruct (Ascii.eqb c "+") eqn:P.
  - apply Ascii.eqb_eq in P. subst c. cbn [Ascii.eqb Bool.eqb andb orb].
    destruct (magnitude s'); reflexivity.
  - destruct (Ascii.eqb c "-"); cbn [orb];
      destruct (magnitude _); reflexivity.
Qed.

(** The value [Atoi] returns beside an error, read off the string: the
    bound of the sign when the leading digits exceed the unsigned range,
    whatever follows them, or when the string is a literal out of the
    range of [int]; 0 on every other string. *)
Lemma Atoi_error_by_string sz s v e :
  Atoi sz s = (v, Some e) ->
  (maxUint sz < leading_digits_value 0 (unsigned_part s) ->
   e = ErrRange /\ v = if is_negative s then minInt sz else maxInt sz) /\
  (leading_digits_value 0 (unsigned_part s) <= maxUint sz ->
   int_literal s = None -> e = ErrSyntax /\ v = 0) /\
  (forall w, int_literal s = Some w ->
     e = ErrRange /\ v = if w <? 0 then minInt sz else maxInt sz).
Proof.
  intros A. split; [|split].
  - intros Hbig. rewrite Atoi_by_parts, ParseUint_any in A.
    destruct (Z.ltb_spec (maxUint sz)
                (leading_digits_value 0 (unsigned_part s))); [|lia].
    rewrite Atoi_finish_range in A. injection A as <- <-. split; reflexivity.
  - intros Hsmall Hnone. rewrite Atoi_by_parts, ParseUint_any in A.
    destruct (Z.ltb_spec (maxUint sz)
                (leading_digits_value 0 (unsigned_part s))); [lia|].
    rewrite int_literal_by_parts in Hnone.
    destruct (magnitude (unsigned_part s)); [discriminate|].
    destruct sz, (is_negative s); injection A as <- <-; split; reflexivity.
  - intros w Hw. pose proof (Atoi_spec sz s) as S. rewrite Hw, A in S.
    destruct (in_int_rangeb sz w); [discriminate|].
    injection S as -> ->. split; reflexivity.
Qed.

Lemma Atoi_error_cases sz s v e :
  Atoi sz s = (v, Some e) ->
  match e with
  | ErrSyntax => v = 0
  | ErrRange => v = maxInt sz \/ v = minInt sz
  end.
Proof.
  pose proof (Atoi_spec sz s) as H.
  destruct (int_literal s) as [w|].
  - destruct (in_int_rangeb sz w); rewrite H; [discriminate|].
    intros [= <- <-]. cbn. destruct (w <? 0); auto.
  - destruct H as (e' & neg & H). rewrite H. intros [= <- <-].
    destruct e'; cbn; [reflexivity | destruct neg; auto].
Qed.

End AtoiFacts.

(** ** auth.Initialize *)

Section AuthFacts.

Import strconv.

Lemma auth_Initialize_empty_name sz id path dom age st :
  auth.Initialize sz "" id path dom age st = (st, Some auth.err_empty_name).
Proof. reflexivity. Qed.

Lemma auth_Initialize_empty_store_id sz name path dom age st :
  name <> "" ->
  auth.Initialize sz name "" path dom age st =
  (st, Some auth.err_empty_store_id).
Proof.
  intros Hn. unfold auth.Initialize.
  destruct (String.eqb_spec name ""); [contradiction | reflexivity].
Qed.

Lemma auth_Initialize_parse sz name id path dom age st :
  name <> "" -> id <> "" ->
  auth.Initialize sz name id path dom age st =
  match Atoi sz age with
  | (n, Some _) => (auth.set_cookieMaxAge n st, Some auth.err_max_age)
  | (n, None) =>
      (auth.set_cookie name id (Some (sessions.NewCookieStore [id])) path dom
         (auth.set_cookieMaxAge n st), None)
  end.
Proof.
  intros Hn Hi. unfold auth.Initialize.
  destruct (String.eqb_spec name ""); [contradiction|].
  destruct (String.eqb_spec id ""); [contradiction|].
  destruct (Atoi sz age) as [v [e|]]; reflexivity.
Qed.

Lemma auth_Initialize_keeps_listeners sz name id path dom age a :
  auth._deauthListeners (fst (auth.Initialize sz name id path dom age a)) =
  auth._deauthListeners a.
Proof.
  unfold auth.Initialize.
  destruct (_ =? _)%string; [reflexivity|].
  destruct (_ =? _)%string; [reflexivity|].
  destruct (strconv.Atoi _ _) as [v [e|]]; reflexivity.
Qed.

(** C1, as stated, fails: a negative max-age is accepted, although it is
    not a non-negative integer. *)
Lemma auth_Initialize_accepts_negative_max_age :
  snd (auth.Initialize Int64 "sess" "abc123" "/" "" "-5" auth.zero) = None /\
  auth._cookieMaxAge
    (fst (auth.Initialize Int64 "sess" "abc123" "/" "" "-5" auth.zero)) = -5 /\
  ~ (exists n, 0 <= n /\ int_literal "-5" = Some n).
Proof.
  split; [reflexivity | split; [reflexivity|]].
  intros (n & Hn & H). cbv in H. injection H as <-. lia.
Qed.

(** C1, amended: [auth.Initialize] fails exactly when the session name is
    empty (empty-name error), or the store id is empty (empty-store-id
    error), or the max-age is not the decimal literal, with an optional
    sign, of an integer in the range of [int] (max-age error); otherwise
    it succeeds, and the stored cookie configuration is the parameters
    given, with the max-age parsed to that integer, negative or not. *)
Theorem auth_Initialize_fails_iff sz name id path dom age st :
  let r := auth.Initialize sz name id path dom age st in
  let parses := exists v, int_literal age = Some v /\ in_int_range sz v in
  (snd r = Some auth.err_empty_name <-> name = "") /\
  (snd r = Some auth.err_empty_store_id <-> name <> "" /\ id = "") /\
  (snd r = Some auth.err_max_age <-> name <> "" /\ id <> "" /\ ~ parses) /\
  (snd r = None <-> name <> "" /\ id <> "" /\ parses) /\
  (snd r <> None <-> name = "" \/ id = "" \/ ~ parses) /\
  (snd r = None ->
   exists v, int_literal age = Some v /\ in_int_range sz v /\
     auth.cookie_config (fst r) =
       (name, id, Some (sessions.NewCookieStore [id]), path, dom, v) /\
     auth._deauthListeners (fst r) = auth._deauthListeners st).
Proof.
  cbv zeta.
  destruct (String.eqb_spec name "") as [->|Hn].
  { rewrite auth_Initialize_empty_name. cbn [snd fst].
    repeat split; try discriminate; try tauto; try (intros [? _]; congruence).
    all: try (intros; exfalso; congruence). }
  destruct (String.eqb_spec id "") as [->|Hi].
  { rewrite auth_Initialize_empty_store_id by assumption. cbn [snd fst].
    repeat split; try discriminate; try tauto;
      try (intros (_ & ? & _); congruence).
    all: try (intros; exfalso; congruence). }
  rewrite auth_Initialize_parse by assumption.
  pose proof (Atoi_ok_iff sz age) as Hok.
  destruct (Atoi sz age) as [v [e|]]; cbn [snd fst].
  - assert (Hno : ~ exists w, int_literal age = Some w /\ in_int_range sz w).
    { intros (w & Hw). apply Hok in Hw. discriminate. }
    repeat split; try discriminate; try tauto; try congruence.
    all: try (intros (_ & _ & ?); contradiction).
  - assert (Hyes : exists w, int_literal age = Some w /\ in_int_range sz w).
    { exists v. apply Hok. reflexivity. }
    repeat split; try discriminate; try tauto; try congruence.
    all: try (intros [?|[?|?]]; contradiction).
    destruct (proj1 (Hok v) eq_refl) as [L R].
    intros _. exists v. repeat split; auto; apply R.
Qed.

(** The scenario of the specification. *)
Example auth_Initialize_scenario :
  snd (auth.Initialize Int64 "sess" "abc123" "" "" "3600" auth.zero) = None /\
  snd (auth.Initialize Int64 "sess" "abc123" "" "" "abc" auth.zero)
    = Some auth.err_max_age /\
  snd (auth.Initialize Int64 "" "abc123" "" "" "3600" auth.zero)
    = Some auth.err_empty_name.
Proof. repeat split. Qed.

Lemma auth_Initialize_success sz name id path dom age st st' :
  auth.Initialize sz name id path dom age st = (st', None) ->
  exists v, Atoi sz age = (v, None) /\
    st' = auth.set_cookie name id (Some (sessions.NewCookieStore [id]))
            path dom (auth.set_cookieMaxAge v st).
Proof.
  destruct (String.eqb_spec name "") as [->|Hn].
  { rewrite auth_Initialize_empty_name. discriminate. }
  destruct (String.eqb_spec id "") as [->|Hi].
  { rewrite auth_Initialize_empty_store_id by assumption. discriminate. }
  rewrite auth_Initialize_parse by assumption.
  destruct (Atoi sz age) as [v [e|]]; [discriminate|].
  intros [= <-]. exists v. split; reflexivity.
Qed.

(** C7: reconfiguration is last-write-wins. After two successful calls,
    with parameters [a] and then [b], the stored cookie configuration
    (session name, store id, store, path, domain, max-age) is the one a
    single successful call with [b] stores, whatever state that call
    starts from: it is [b]'s parameters, and nothing of [a] remains. *)
Theorem auth_Initialize_last_write_wins sz
    name_a id_a path_a dom_a age_a name_b id_b path_b dom_b age_b
    st st1 st2 :
  auth.Initialize sz name_a id_a path_a dom_a age_a st = (st1, None) ->
  auth.Initialize sz name_b id_b path_b dom_b age_b st1 = (st2, None) ->
  (forall st0 st',
     auth.Initialize sz name_b id_b path_b dom_b age_b st0 = (st', None) ->
     auth.cookie_config st2 = auth.cookie_config st') /\
  (exists v, int_literal age_b = Some v /\
     auth.cookie_config st2 =
       (name_b, id_b, Some (sessions.NewCookieStore [id_b]),
        path_b, dom_b, v)).
Proof.
  intros _ Hb.
  apply auth_Initialize_success in Hb as (v & Av & ->).
  split.
  - intros st0 st' H0.
    apply auth_Initialize_success in H0 as (w & Aw & ->).
    rewrite Av in Aw. injection Aw as <-. reflexivity.
  - exists v. split; [|reflexivity].
    apply Atoi_ok_iff in Av. apply Av.
Qed.

Lemma auth_Initialize_last_write_wins_witness :
  let a := auth.Initialize Int64 "sess" "abc123" "/" "" "3600" auth.zero in
  let b := auth.Initialize Int64 "sid" "k2" "/app" "example.org" "-60" (fst a) in
  auth.cookie_config (fst b) =
    ("sid", "k2", Some (sessions.NewCookieStore ["k2"]), "/app",
     "example.org", -60) /\
  auth.cookie_config (fst b) =
    auth.cookie_config
      (fst (auth.Initialize Int64 "sid" "k2" "/app" "example.org" "-60" auth.zero)).
Proof.
  cbv zeta.
  destruct (auth_Initialize_last_write_wins Int64
              "sess" "abc123" "/" "" "3600" "sid" "k2" "/app" "example.org" "-60"
              auth.zero _ _ eq_refl eq_refl) as [H1 _].
  split; [reflexivity|].
  exact (H1 auth.zero _ eq_refl).
Defined.

(** C9, as stated, fails: on a max-age out of the range of [int] the call
    fails and [_cookieMaxAge] is overwritten with the largest [int], not
    with 0. *)
Lemma auth_Initialize_range_error_overwrites_max_age :
  snd (auth.Initialize Int64 "sess" "abc123" "/" "" "99999999999999999999"
         auth.zero) = Some auth.err_max_age /\
  auth._cookieMaxAge
    (fst (auth.Initialize Int64 "sess" "abc123" "/" "" "99999999999999999999"
            auth.zero)) = 9223372036854775807 /\
  snd (auth.Initialize Int32 "sess" "abc123" "/" "" "-99999999999999999999"
         auth.zero) = Some auth.err_max_age /\
  auth._cookieMaxAge
    (fst (auth.Initialize Int32 "sess" "abc123" "/" "" "-99999999999999999999"
            auth.zero)) = -2147483648.
Proof. repeat split. Qed.

(** C9, amended: [auth.Initialize] is only partially atomic on error. When
    it fails because the session name or the store id is empty, every
    package-level variable is left unchanged. When it fails because the
    max-age does not parse as an [int], [_cookieMaxAge] is overwritten
    with the value [Atoi] returns beside its error, while the other
    variables keep their prior values. That value is the largest [int], or
    the smallest after a minus sign, on a range error: when the digits the
    number starts with exceed the unsigned range of the word, whatever
    follows them, or when the string is a decimal integer out of the
    range of [int]. It is 0 on a syntax error: on every other string. *)
Theorem auth_Initialize_partial_atomicity sz name id path dom age st st' e :
  auth.Initialize sz name id path dom age st = (st', Some e) ->
  (name = "" \/ id = "" -> st' = st) /\
  (name <> "" -> id <> "" ->
   exists v ne,
     Atoi sz age = (v, Some ne) /\
     match ne with
     | ErrSyntax => v = 0
     | ErrRange => v = maxInt sz \/ v = minInt sz
     end /\
     (maxUint sz < leading_digits_value 0 (unsigned_part age) ->
      ne = ErrRange /\
      v = if is_negative age then minInt sz else maxInt sz) /\
     (forall w, int_literal age = Some w ->
        ne = ErrRange /\ v = if w <? 0 then minInt sz else maxInt sz) /\
     (leading_digits_value 0 (unsigned_part age) <= maxUint sz ->
      int_literal age = None -> ne = ErrSyntax /\ v = 0) /\
     auth._cookieMaxAge st' = v /\
     auth._cookieSessName st' = auth._cookieSessName st /\
     auth._cookieStoreId st' = auth._cookieStoreId st /\
     auth._cookieStore st' = auth._cookieStore st /\
     auth._cookiePath st' = auth._cookiePath st /\
     auth._cookieDomain st' = auth._cookieDomain st /\
     auth._deauthListeners st' = auth._deauthListeners st).
Proof.
  intros H. split.
  - intros [->| ->].
    + rewrite auth_Initialize_empty_name in H. congruence.
    + destruct (String.eqb_spec name "") as [->|Hn].
      * rewrite auth_Initialize_empty_name in H. congruence.
      * rewrite auth_Initialize_empty_store_id in H by assumption. congruence.
  - intros Hn Hi. rewrite auth_Initialize_parse in H by assumption.
    destruct (Atoi sz age) as [v [ne|]] eqn:A; [|discriminate].
    injection H as <- _. exists v, ne.
    destruct (Atoi_error_by_string _ _ _ _ A) as (Hbig & Hnone & Hlit).
    split; [reflexivity|]. split; [exact (Atoi_error_cases _ _ _ _ A)|].
    split; [exact Hbig|]. split; [exact Hlit|]. split; [exact Hnone|].
    repeat split.
Qed.

Lemma auth_Initialize_partial_atomicity_witness :
  let st := fst (auth.Initialize Int64 "sess" "abc123" "/" "" "3600" auth.zero) in
  let r := auth.Initialize Int64 "sid" "k2" "/app" "example.org" "abc" st in
  auth._cookieMaxAge st = 3600 /\
  snd r = Some auth.err_max_age /\
  auth._cookieMaxAge (fst r) = 0 /\
  auth._cookieSessName (fst r) = "sess".
Proof.
  cbv zeta.
  destruct (auth_Initialize_partial_atomicity Int64
              "sid" "k2" "/app" "example.org" "abc"
              (fst (auth.Initialize Int64 "sess" "abc123" "/" "" "3600" auth.zero))
              _ _ eq_refl) as [_ H].
  destruct H as (v & ne & A & _ & _ & _ & _ & Hv & Hname & _);
    [discriminate | discriminate |].
  split; [reflexivity|]. split; [reflexivity|].
  split; [|exact Hname].
  injection A as <- _. exact Hv.
Defined.

(** A range error comes before a syntax error: [Atoi] reports the
    overflow at the digit where it happens and does not see what follows,
    so the largest [int] is stored for a string that is no number. *)
Example auth_Initialize_range_error_before_syntax :
  int_literal "99999999999999999999abc" = None /\
  auth.Initialize Int64 "sess" "abc123" "/" "" "99999999999999999999abc"
    auth.zero =
  (auth.set_cookieMaxAge 9223372036854775807 auth.zero,
   Some auth.err_max_age).
Proof. split; reflexivity. Qed.

End AuthFacts.

(** ** api_http *)

Section ApiHttpFacts.

Import api_http.
Local Open Scope go_scope.

Variable W : World.

(** *** Initialize_Auth *)

Lemma Initialize_Auth_unfold ctx st :
  Initialize_Auth W ctx st =
  if (CookieName (Auth ctx) =? "")%string then Ok (Some err_cookie_name) st
  else if (CookieStoreId (Auth ctx) =? "")%string
       then Ok (Some err_cookie_store_id) st
  else
    let r := call_auth_Initialize W ctx (auth_pkg st) in
    Ok (snd r)
       (set_auth_pkg (auth.AddListener_DeAuth api_ws.CloseAuthdConn (fst r)) st).
Proof.
  unfold Initialize_Auth, call_auth_Initialize.
  destruct (CookieName (Auth ctx) =? "")%string; [reflexivity|].
  destruct (CookieStoreId (Auth ctx) =? "")%string; [reflexivity|].
  unfold bind, in_auth, ret. cbv zeta.
  destruct (auth_Initialize W _ _ _ _ _ _ _) as [a err]. reflexivity.
Qed.

(** C10, as stated, fails: with an empty cookie name [Initialize_Auth]
    returns before it registers the listener, and the registry is left
    as it was. *)
Lemma Initialize_Auth_empty_name_registers_nothing :
  Initialize_Auth sample_World (with_Auth no_name_Auth sample_Ctx) zero =
  Ok (Some err_cookie_name) zero /\
  auth._deauthListeners (auth_pkg zero) = [].
Proof. split; reflexivity. Qed.

(** C10, amended: [Initialize_Auth] registers [api_ws.CloseAuthdConn] as a
    de-auth listener whenever it gets as far as calling [auth.Initialize],
    that is for every context whose cookie name and cookie store id are
    not empty, and whether [auth.Initialize] returns an error or not; a
    repeated call registers the listener again. When the cookie name or
    the store id is empty it returns its own error first and the
    registry is left as it was. The listener is added at the end of the
    registry as the call of [auth.Initialize] left it; when that call
    leaves the registry alone, as the function of [auth/initialize.go]
    does, the registry after one call is the registry before with the
    listener added, and after two calls with the listener added twice. *)
Theorem Initialize_Auth_registers_listener ctx st :
  (CookieName (Auth ctx) = "" \/ CookieStoreId (Auth ctx) = "" ->
   exists e, Initialize_Auth W ctx st = Ok (Some e) st) /\
  (CookieName (Auth ctx) <> "" -> CookieStoreId (Auth ctx) <> "" ->
   exists st1,
     Initialize_Auth W ctx st =
       Ok (snd (call_auth_Initialize W ctx (auth_pkg st))) st1 /\
     auth._deauthListeners (auth_pkg st1) =
       (auth._deauthListeners
          (fst (call_auth_Initialize W ctx (auth_pkg st)))
        ++ [api_ws.CloseAuthdConn])%list /\
     exists st2,
       Initialize_Auth W ctx st1 =
         Ok (snd (call_auth_Initialize W ctx (auth_pkg st1))) st2 /\
       auth._deauthListeners (auth_pkg st2) =
         (auth._deauthListeners
            (fst (call_auth_Initialize W ctx (auth_pkg st1)))
          ++ [api_ws.CloseAuthdConn])%list) /\
  ((forall a,
      auth._deauthListeners (fst (call_auth_Initialize W ctx a)) =
      auth._deauthListeners a) ->
   CookieName (Auth ctx) <> "" -> CookieStoreId (Auth ctx) <> "" ->
   exists st1,
     Initialize_Auth W ctx st =
       Ok (snd (call_auth_Initialize W ctx (auth_pkg st))) st1 /\
     auth._deauthListeners (auth_pkg st1) =
       (auth._deauthListeners (auth_pkg st) ++ [api_ws.CloseAuthdConn])%list /\
     exists err2 st2,
       Initialize_Auth W ctx st1 = Ok err2 st2 /\
       auth._deauthListeners (auth_pkg st2) =
         (auth._deauthListeners (auth_pkg st)
            ++ [api_ws.CloseAuthdConn; api_ws.CloseAuthdConn])%list).
Proof.
  split; [|split].
  - intros [E|E]; rewrite Initialize_Auth_unfold, E; cbn.
    + eauto.
    + destruct (_ =? _)%string; eauto.
  - intros Hn Hi. rewrite !Initialize_Auth_unfold.
    destruct (String.eqb_spec (CookieName (Auth ctx)) ""); [contradiction|].
    destruct (String.eqb_spec (CookieStoreId (Auth ctx)) ""); [contradiction|].
    cbv zeta. eexists. split; [reflexivity|].
    split; [reflexivity|].
    rewrite Initialize_Auth_unfold.
    destruct (String.eqb_spec (CookieName (Auth ctx)) ""); [contradiction|].
    destruct (String.eqb_spec (CookieStoreId (Auth ctx)) ""); [contradiction|].
    cbv zeta. eexists. split; reflexivity.
  - intros Hkeep Hn Hi. rewrite !Initialize_Auth_unfold.
    destruct (String.eqb_spec (CookieName (Auth ctx)) ""); [contradiction|].
    destruct (String.eqb_spec (CookieStoreId (Auth ctx)) ""); [contradiction|].
    cbv zeta. eexists. split; [reflexivity|].
    split; [cbn; rewrite Hkeep; reflexivity|].
    rewrite Initialize_Auth_unfold.
    destruct (String.eqb_spec (CookieName (Auth ctx)) ""); [contradiction|].
    destruct (String.eqb_spec (CookieStoreId (Auth ctx)) ""); [contradiction|].
    cbv zeta. do 2 eexists. split; [reflexivity|].
    cbn. rewrite Hkeep. cbn. rewrite Hkeep, <- app_assoc. reflexivity.
Qed.

(** *** DeInitialize *)

Lemma Stop_idempotent w : reseer.Stop (reseer.Stop w) = reseer.Stop w.
Proof. reflexivity. Qed.

Lemma DeInitialize_unfold st :
  DeInitialize st =
  match _versionWatcher st with
  | Some w => Ok tt (set_versionWatcher (Some (reseer.Stop w)) st)
  | None => Ok tt st
  end.
Proof.
  unfold DeInitialize, bind, gets, versionWatcher_Stop.
  destruct (_versionWatcher st) as [w|] eqn:E; [rewrite E|]; reflexivity.
Qed.

(** C8: [DeInitialize] stops the version tracker and never fails. It
    always returns; when a watcher was created it calls [Stop] on it, after
    which the watcher does not run; when there is none (nil) it changes
    nothing; and calling it again changes nothing more. *)
Theorem DeInitialize_safe st :
  (exists st', DeInitialize st = Ok tt st') /\
  (_versionWatcher st = None -> DeInitialize st = Ok tt st) /\
  (forall w, _versionWatcher st = Some w ->
     DeInitialize st = Ok tt (set_versionWatcher (Some (reseer.Stop w)) st) /\
     reseer.running (reseer.Stop w) = false) /\
  (forall st1, DeInitialize st = Ok tt st1 -> DeInitialize st1 = Ok tt st1).
Proof.
  rewrite DeInitialize_unfold.
  destruct (_versionWatcher st) as [w|] eqn:E.
  - split; [eauto|]. split; [discriminate|]. split.
    + intros w' [= <-]. split; reflexivity.
    + intros st1 [= <-]. rewrite DeInitialize_unfold. reflexivity.
  - split; [eauto|]. split; [reflexivity|]. split.
    + discriminate.
    + intros st1 [= <-]. rewrite DeInitialize_unfold, E. reflexivity.
Qed.

(** *** Initialize: the steps and the first error *)

Lemma Initialize_as_steps ctx st :
  Initialize W ctx st =
  (err <- run_steps (steps W ctx) ;;
   return_if_err err ;;
   modify (set_ctx ctx) ;; ret None) st.
Proof.
  unfold Initialize, steps, run_steps, check_OnPanic, bind, ret.
  destruct (Initialize_Auth W ctx st) as [[e|] st1|msg]; try reflexivity.
  destruct (Initialize_Dirs W (CtxDirs ctx) st1) as [[e|] st2|msg];
    try reflexivity.
  destruct (OnPanic ctx); try reflexivity.
  destruct (Initialize_ReqRes W ctx st2) as [[e|] st3|msg]; try reflexivity.
  destruct (Initialize_XHR W ctx st3) as [[e|] st4|msg]; try reflexivity.
  destruct (Initialize_WS ctx st4) as [[e|] st5|msg]; try reflexivity.
  destruct (Initialize_Router W ctx st5) as [[e|] st6|msg]; reflexivity.
Qed.

Lemma run_steps_first_error pre step post : forall st st_k st' e,
  run_steps pre st = Ok None st_k ->
  step st_k = Ok (Some e) st' ->
  run_steps (pre ++ step :: post) st = Ok (Some e) st'.
Proof.
  induction pre as [|s pre IH]; intros st st_k st' e Hpre Hstep.
  - cbn in *. unfold ret in Hpre. injection Hpre as <-.
    unfold bind. rewrite Hstep. reflexivity.
  - cbn in *. unfold bind in *.
    destruct (s st) as [[e0|] st0|msg]; try discriminate.
    eapply IH; eassumption.
Qed.

Lemma quiet_Initialize_Auth ctx : quiet (Initialize_Auth W ctx).
Proof.
  intros st err st'. rewrite Initialize_Auth_unfold.
  destruct (_ =? _)%string; [intros [= <- <-]; repeat split|].
  destruct (_ =? _)%string; [intros [= <- <-]; repeat split|].
  cbv zeta. intros [= <- <-]. repeat split.
Qed.

Lemma quiet_Initialize_Dirs ctx : quiet (Initialize_Dirs W (CtxDirs ctx)).
Proof.
  intros st err st'. unfold Initialize_Dirs, bind, modify, ret, setAppVersion,
    modify, panic.
  destruct (reseer_New W _ _ _) as [[w|] [e|]];
    try discriminate; intros [= <- <-]; repeat split.
Qed.

Lemma quiet_check_OnPanic ctx : quiet (check_OnPanic ctx).
Proof.
  intros st err st'. unfold check_OnPanic, ret.
  destruct (OnPanic ctx); intros [= <- <-]; repeat split.
Qed.

Lemma quiet_Initialize_ReqRes ctx : quiet (Initialize_ReqRes W ctx).
Proof. intros st err st' [= <- <-]. repeat split. Qed.

Lemma quiet_Initialize_XHR ctx : quiet (Initialize_XHR W ctx).
Proof. intros st err st' [= <- <-]. repeat split. Qed.

Lemma quiet_Initialize_WS ctx : quiet (Initialize_WS ctx).
Proof.
  intros st err st'. unfold Initialize_WS, in_api_ws.
  destruct (api_ws.Initialize _ _ _) as [w e].
  intros [= <- <-]. repeat split.
Qed.

Lemma Initialize_Router_returns_nil ctx st err st' :
  Initialize_Router W ctx st = Ok err st' -> err = None.
Proof.
  unfold Initialize_Router, bind, http_Handle, fmt_Println, modify, ret.
  destruct (build_router W ctx) as [router summ].
  destruct (registered _ _); [discriminate|].
  intros [= <- _]. reflexivity.
Qed.

Lemma startup_untouched_trans st1 st2 st3 :
  startup_untouched st1 st2 -> startup_untouched st2 st3 ->
  startup_untouched st1 st3.
Proof. unfold startup_untouched. intuition congruence. Qed.

Lemma run_steps_quiet l :
  Forall quiet l -> quiet (run_steps l).
Proof.
  induction 1 as [|s l Hs Hl IH]; intros st err st'; cbn.
  - intros [= <- <-]. repeat split.
  - unfold bind. destruct (s st) as [[e|] st1|msg] eqn:E; try discriminate.
    + intros [= <- <-]. exact (Hs _ _ _ E).
    + intros H. eapply startup_untouched_trans; [exact (Hs _ _ _ E)|].
      exact (IH _ _ _ H).
Qed.

Lemma quiet_first_six ctx :
  Forall quiet
    [ Initialize_Auth W ctx; Initialize_Dirs W (CtxDirs ctx); check_OnPanic ctx;
      Initialize_ReqRes W ctx; Initialize_XHR W ctx; Initialize_WS ctx ].
Proof.
  repeat apply Forall_cons; try apply Forall_nil.
  - apply quiet_Initialize_Auth.
  - apply quiet_Initialize_Dirs.
  - apply quiet_check_OnPanic.
  - apply quiet_Initialize_ReqRes.
  - apply quiet_Initialize_XHR.
  - apply quiet_Initialize_WS.
Qed.

Lemma Forall_app_l {A} (P : A -> Prop) l1 l2 :
  Forall P (l1 ++ l2) -> Forall P l1.
Proof. intros H. apply Forall_app in H. apply H. Qed.

(** C3: configuration errors propagate up and prevent startup. Whichever
    step of [Initialize] (auth, dirs, the check of OnPanic, reqres, XHR, WS,
    router) is the first to return an error, [Initialize] returns that
    error in the state that step left: the later steps do not run, the
    root HTTP listener is not registered, nothing is printed, and [_ctx]
    is not assigned. *)
Theorem Initialize_fails_fast ctx pre step post st st_k st' e :
  steps W ctx = (pre ++ step :: post)%list ->
  run_steps pre st = Ok None st_k ->
  step st_k = Ok (Some e) st' ->
  Initialize W ctx st = Ok (Some e) st' /\
  DefaultServeMux st' = DefaultServeMux st /\
  stdout st' = stdout st /\
  _ctx st' = _ctx st.
Proof.
  intros Hsplit Hpre Hstep. split.
  - rewrite Initialize_as_steps, Hsplit. unfold bind at 1.
    rewrite (run_steps_first_error _ _ _ _ _ _ _ Hpre Hstep). reflexivity.
  - change (startup_untouched st st').
    assert (Hq : Forall quiet (pre ++ [step])).
    { destruct post as [|s post].
      - exfalso. unfold steps in Hsplit.
        change [Initialize_Auth W ctx; Initialize_Dirs W (CtxDirs ctx);
                check_OnPanic ctx; Initialize_ReqRes W ctx;
                Initialize_XHR W ctx; Initialize_WS ctx;
                Initialize_Router W ctx]
          with ([Initialize_Auth W ctx; Initialize_Dirs W (CtxDirs ctx);
                 check_OnPanic ctx; Initialize_ReqRes W ctx;
                 Initialize_XHR W ctx; Initialize_WS ctx]
                ++ [Initialize_Router W ctx])%list in Hsplit.
        apply app_inj_tail in Hsplit as [_ <-].
        apply Initialize_Router_returns_nil in Hstep. discriminate.
      - pose proof (quiet_first_six ctx) as H6.
        unfold steps in Hsplit.
        destruct (exists_last (l := s :: post)) as (post' & last & Hl);
          [discriminate|].
        rewrite Hl in Hsplit.
        change [Initialize_Auth W ctx; Initialize_Dirs W (CtxDirs ctx);
                check_OnPanic ctx; Initialize_ReqRes W ctx;
                Initialize_XHR W ctx; Initialize_WS ctx;
                Initialize_Router W ctx]
          with ([Initialize_Auth W ctx; Initialize_Dirs W (CtxDirs ctx);
                 check_OnPanic ctx; Initialize_ReqRes W ctx;
                 Initialize_XHR W ctx; Initialize_WS ctx]
                ++ [Initialize_Router W ctx])%list in Hsplit.
        replace (pre ++ step :: post' ++ [last])%list
          with ((pre ++ [step] ++ post') ++ [last])%list in Hsplit
          by (rewrite <- !app_assoc; reflexivity).
        apply app_inj_tail in Hsplit as [Hsix _].
        rewrite Hsix in H6. rewrite app_assoc in H6.
        exact (Forall_app_l _ _ _ H6). }
    apply Forall_app in Hq as [Hq1 Hq2].
    eapply startup_untouched_trans.
    + exact (run_steps_quiet _ Hq1 _ _ _ Hpre).
    + inversion Hq2 as [|? ? Hs _]; subst. exact (Hs _ _ _ Hstep).
Qed.

(** *** Initialize without a panic handler *)

Lemma Initialize_Auth_returns ctx st :
  exists err st', Initialize_Auth W ctx st = Ok err st'.
Proof.
  rewrite Initialize_Auth_unfold.
  destruct (_ =? _)%string; [eauto|].
  destruct (_ =? _)%string; eauto.
Qed.

Lemma Initialize_Dirs_cases dirs st :
  (exists err st', Initialize_Dirs W dirs st = Ok err st') \/
  (exists msg, Initialize_Dirs W dirs st = Panic msg /\
     reseer_New W (path_Join W (VersionFileDir dirs) "reseer_track.csv")
       (AppWatchNotify dirs) onAppVersionChanged = (None, None)).
Proof.
  unfold Initialize_Dirs, bind, modify, ret, setAppVersion, modify, panic.
  destruct (reseer_New W _ _ _) as [[w|] [e|]]; eauto.
Qed.

(** C2, as stated, fails: without a panic handler and with an empty cookie
    name, [Initialize] returns the error of the authentication step, which
    comes first, and not "OnPanic handler must be provided". *)
Lemma Initialize_without_OnPanic_other_error :
  OnPanic (without_OnPanic (with_Auth no_name_Auth sample_Ctx)) = None /\
  Initialize sample_World (without_OnPanic (with_Auth no_name_Auth sample_Ctx))
    zero = Ok (Some "Cookie name must be specified") zero /\
  "Cookie name must be specified" <> err_no_OnPanic.
Proof. repeat split. discriminate. Qed.

(** C2, amended: initialisation fails when the panic handler is absent.
    For every context with [ctx.OnPanic == nil], [api_http.Initialize]
    never returns nil. It returns "OnPanic handler must be provided"
    whenever the two steps before the check, [Initialize_Auth] and
    [Initialize_Dirs], return nil; when one of them returns an error, it
    returns that error instead. It either returns an error or panics,
    and it panics in one case only: inside [Initialize_Dirs], when
    [reseer.New] hands back a nil watcher with a nil error. All this
    holds whatever the [auth.Initialize] that [Initialize_Auth] calls
    does. Likewise [api_ws.Initialize] returns an error, and leaves its
    variables alone, when its [onPanic] argument is nil. *)
Theorem Initialize_without_OnPanic ctx st :
  OnPanic ctx = None ->
  (forall st', Initialize W ctx st <> Ok None st') /\
  (forall st1 st2,
     Initialize_Auth W ctx st = Ok None st1 ->
     Initialize_Dirs W (CtxDirs ctx) st1 = Ok None st2 ->
     Initialize W ctx st = Ok (Some err_no_OnPanic) st2) /\
  (forall e st1,
     Initialize_Auth W ctx st = Ok (Some e) st1 ->
     Initialize W ctx st = Ok (Some e) st1) /\
  (forall e st1 st2,
     Initialize_Auth W ctx st = Ok None st1 ->
     Initialize_Dirs W (CtxDirs ctx) st1 = Ok (Some e) st2 ->
     Initialize W ctx st = Ok (Some e) st2) /\
  ((exists e st', Initialize W ctx st = Ok (Some e) st') \/
   (exists msg, Initialize W ctx st = Panic msg /\
      reseer_New W
        (path_Join W (VersionFileDir (CtxDirs ctx)) "reseer_track.csv")
        (AppWatchNotify (CtxDirs ctx)) onAppVersionChanged = (None, None))) /\
  (forall verGetter st_ws,
     exists e, api_ws.Initialize verGetter None st_ws = (st_ws, Some e)).
Proof.
  intros Hnil.
  assert (Hshape : Initialize W ctx st =
    match Initialize_Auth W ctx st with
    | Ok None st1 =>
        match Initialize_Dirs W (CtxDirs ctx) st1 with
        | Ok None st2 => Ok (Some err_no_OnPanic) st2
        | other => other
        end
    | other => other
    end).
  { unfold Initialize, bind, ret. rewrite Hnil.
    destruct (Initialize_Auth W ctx st) as [[e|] st1|msg]; try reflexivity.
    destruct (Initialize_Dirs W (CtxDirs ctx) st1) as [[e|] st2|msg];
      reflexivity. }
  rewrite Hshape. clear Hshape.
  destruct (Initialize_Auth_returns ctx st) as (err1 & st1 & H1). rewrite H1.
  repeat match goal with |- _ /\ _ => split end.
  - intros st'. destruct err1; [discriminate|].
    destruct (Initialize_Dirs W (CtxDirs ctx) st1) as [[e|] st2|msg];
      discriminate.
  - intros s1 s2 [= -> ->] H2. rewrite H2. reflexivity.
  - intros e s1 [= -> ->]. reflexivity.
  - intros e s1 s2 [= -> ->] H2. rewrite H2. reflexivity.
  - destruct err1 as [e|]; [left; eauto|].
    destruct (Initialize_Dirs_cases (CtxDirs ctx) st1)
      as [(err2 & st2 & H2)|(msg & H2 & Hnew)]; rewrite H2.
    + left. destruct err2; eauto.
    + right. eauto.
  - intros verGetter st_ws. unfold api_ws.Initialize.
    destruct verGetter; eauto.
Qed.

(** *** The router and the summary *)

Lemma extend_nil acc : extend acc [] [] = acc.
Proof.
  destruct acc as [[rs nf] [t h ls]]. unfold extend. cbn.
  rewrite !app_nil_r. reflexivity.
Qed.

Lemma extend_extend acc rs1 ls1 rs2 ls2 :
  extend (extend acc rs1 ls1) rs2 ls2 =
  extend acc (rs1 ++ rs2) (ls1 ++ ls2).
Proof. unfold extend. cbn. rewrite <- !app_assoc. reflexivity. Qed.

Lemma blank_extend acc : blank acc = extend acc [] [util.BlankLine].
Proof.
  destruct acc as [[rs nf] summ]. unfold blank, extend, util.AddBlankLine.
  cbn. rewrite app_nil_r. reflexivity.
Qed.

Lemma fold_HandleFunc (f : HandlerFunc) l : forall router : Router,
  fold_left (fun router r => mux.HandleFunc r f router) l router =
  {| mux.routes := mux.routes router ++ map (fun p => (p, f)) l;
     mux.NotFoundHandler := mux.NotFoundHandler router |}.
Proof.
  induction l as [|p l IH]; intros router; cbn [fold_left map].
  - destruct router. cbn. rewrite app_nil_r. reflexivity.
  - rewrite IH. unfold mux.HandleFunc. cbn.
    rewrite <- app_assoc. reflexivity.
Qed.

Lemma makeRouteHandlers_extend ctx router r h authd descr summ :
  makeRouteHandlers W ctx router r h authd descr summ =
  extend (router, summ) (synonym_routes W ctx authd (r, h))
    [summ_line W descr r (ObjH h)].
Proof.
  unfold makeRouteHandlers. rewrite fold_HandleFunc. reflexivity.
Qed.

Lemma fold_makeRouteHandlers ctx authd descr tbl : forall acc,
  fold_left (fun acc e => makeRouteHandlers W ctx (fst acc) (fst e) (snd e)
                            authd descr (snd acc)) tbl acc =
  extend acc (flat_map (synonym_routes W ctx authd) tbl)
    (table_lines W descr tbl).
Proof.
  induction tbl as [|[r h] tbl IH]; intros acc; cbn [fold_left].
  - symmetry. apply extend_nil.
  - rewrite IH, makeRouteHandlers_extend.
    destruct acc as [router summ]. cbn [fst snd].
    rewrite extend_extend. reflexivity.
Qed.

Lemma fold_add_route descr mk tbl : forall acc,
  fold_left (add_route W descr mk) tbl acc =
  extend acc (map (fun e => (fst e, mk (snd e))) tbl)
    (table_lines W descr tbl).
Proof.
  induction tbl as [|[r h] tbl IH]; intros acc; cbn [fold_left].
  - symmetry. apply extend_nil.
  - rewrite IH. destruct acc as [router summ].
    change (add_route W descr mk (router, summ) (r, h))
      with (extend (router, summ) [(r, mk h)] [summ_line W descr r (ObjH h)]).
    rewrite extend_extend. reflexivity.
Qed.

Lemma fold_add_ws_route ctx descr authd tbl l : forall acc,
  fold_left (add_ws_route W ctx descr authd tbl) l acc =
  extend acc
    (map (fun wsr =>
            (URL wsr, makeHandler_WS ctx (loop_var_ptr tbl wsr) authd)) l)
    (ws_lines W descr l).
Proof.
  induction l as [|wsr l IH]; intros acc; cbn [fold_left].
  - symmetry. apply extend_nil.
  - rewrite IH. destruct acc as [router summ].
    change (add_ws_route W ctx descr authd tbl (router, summ) wsr)
      with (extend (router, summ)
              [(URL wsr, makeHandler_WS ctx (loop_var_ptr tbl wsr) authd)]
              [summ_line W descr (URL wsr) (ObjProcs (Procs wsr))]).
    rewrite extend_extend. reflexivity.
Qed.

(** What [Initialize_Router] builds: the routes and the lines read off
    the tables. *)
Lemma build_router_spec ctx :
  build_router W ctx =
  ({| mux.routes := router_routes W ctx;
      mux.NotFoundHandler :=
        Some (makeHandler_NotFound ctx (HTML_NotFound (Handlers_HTML ctx))) |},
   {| util.title := "Registered HTTP routes";
      util.header := ["Type"; "Route"; "Handler"; "Package"];
      util.lines := summary_lines W ctx |}).
Proof.
  unfold build_router. cbv zeta.
  rewrite !fold_makeRouteHandlers, !fold_add_route, !fold_add_ws_route,
    !blank_extend, !extend_extend.
  unfold extend, addSumm, util.AddBlankLine, util.AddLine,
    mux.set_NotFoundHandler, util.NewSummary, mux.NewRouter.
  cbn [fst snd mux.routes mux.NotFoundHandler util.title util.header util.lines].
  unfold router_routes, ws_routes, summary_lines, summ_line.
  f_equal; f_equal; cbn [app]; rewrite ?app_nil_r;
    repeat (rewrite <- app_assoc; cbn [app]); reflexivity.
Qed.

Lemma first_match_app (rs1 rs2 : list (string * HandlerFunc)) path :
  mux.first_match (route_matches W) (rs1 ++ rs2) path =
  match mux.first_match (route_matches W) rs1 path with
  | Some f => Some f
  | None => mux.first_match (route_matches W) rs2 path
  end.
Proof.
  induction rs1 as [|[tpl f] rs1 IH]; cbn; [reflexivity|].
  destruct (route_matches W tpl path); [reflexivity | exact IH].
Qed.


Lemma first_match_none (rs : list (string * HandlerFunc)) path :
  (forall tpl f, In (tpl, f) rs -> route_matches W tpl path = false) ->
  mux.first_match (route_matches W) rs path = None.
Proof.
  induction rs as [|[tpl f] rs IH]; intros H; cbn; [reflexivity|].
  rewrite (H tpl f) by (left; reflexivity).
  apply IH. intros t g Hin. apply (H t g). right. exact Hin.
Qed.


Lemma Initialize_Router_unfold ctx st :
  Initialize_Router W ctx st =
  if registered "/" st
  then Panic "http: multiple registrations"
  else Ok None
         (set_stdout (stdout st ++ [snd (build_router W ctx)])
            (set_DefaultServeMux
               (DefaultServeMux st ++ [("/", fst (build_router W ctx))]) st)).
Proof.
  unfold Initialize_Router, bind, http_Handle, fmt_Println, modify, ret.
  destruct (build_router W ctx) as [router summ].
  destruct (registered _ _); reflexivity.
Qed.


(** C6: [Initialize_Router] succeeds whenever the root pattern is free,
    and after it succeeds the router it installed at the root has, for
    [NotFoundHandler], the wrapper that [makeHandler_NotFound] makes of
    [ctx.Handlers_HTML.NotFound], and every request path that matches no
    registered route resolves to that handler, not to a failure. *)
Theorem Initialize_Router_NotFound ctx st :
  (registered "/" st = false ->
   exists st', Initialize_Router W ctx st = Ok None st') /\
  (forall err st',
     Initialize_Router W ctx st = Ok err st' ->
     exists router,
       DefaultServeMux st' = (DefaultServeMux st ++ [("/", router)])%list /\
       mux.NotFoundHandler router =
         Some (makeHandler_NotFound ctx (HTML_NotFound (Handlers_HTML ctx))) /\
       forall path,
         (forall tpl f, In (tpl, f) (mux.routes router) ->
                        route_matches W tpl path = false) ->
         mux.Match (route_matches W) router path =
           Some (makeHandler_NotFound ctx (HTML_NotFound (Handlers_HTML ctx)))).
Proof.
  rewrite Initialize_Router_unfold, build_router_spec.
  destruct (registered _ _); split; try discriminate; eauto.
  intros err st' [= <- <-]. eexists. cbn [DefaultServeMux set_stdout
    set_DefaultServeMux fst snd]. split; [reflexivity|].
  split; [reflexivity|].
  intros path Hnone. unfold mux.Match.
  rewrite (first_match_none _ _ Hnone). reflexivity.
Qed.

End ApiHttpFacts.


(** ** The properties at the sample world *)

Lemma Initialize_Auth_registers_listener_witness :
  exists st1,
    api_http.Initialize_Auth api_http.sample_World
      (api_http.with_Auth api_http.bad_age_Auth api_http.sample_Ctx)
      api_http.zero = api_http.Ok (Some auth.err_max_age) st1 /\
    auth._deauthListeners (api_http.auth_pkg st1) = [api_ws.CloseAuthdConn].
Proof.
  destruct (Initialize_Auth_registers_listener api_http.sample_World
              (api_http.with_Auth api_http.bad_age_Auth api_http.sample_Ctx)
              api_http.zero) as (_ & _ & H).
  destruct H as (st1 & H1 & H2 & _);
    [intros a; apply auth_Initialize_keeps_listeners
    | discriminate | discriminate |].
  exists st1. split; [exact H1 | exact H2].
Defined.

Lemma DeInitialize_safe_witness :
  let st := api_http.set_versionWatcher (Some api_http.sample_Seer)
              api_http.zero in
  exists st1,
    api_http.DeInitialize st = api_http.Ok tt st1 /\
    api_http.DeInitialize st1 = api_http.Ok tt st1 /\
    option_map reseer.running (api_http._versionWatcher st1) = Some false.
Proof.
  cbv zeta.
  destruct (DeInitialize_safe
              (api_http.set_versionWatcher (Some api_http.sample_Seer)
                 api_http.zero)) as (_ & _ & H & Hagain).
  destruct (H api_http.sample_Seer eq_refl) as [H1 _].
  eexists. split; [exact H1|]. split; [exact (Hagain _ H1) | reflexivity].
Defined.

(** Without a panic handler: where the [auth.Initialize] called does not
    look at the handler, the error is that of the check in [Initialize];
    where it refuses a nil handler, the error is its own. *)
Lemma Initialize_without_OnPanic_witness :
  (exists st',
     api_http.Initialize api_http.sample_World
       (api_http.without_OnPanic api_http.sample_Ctx) api_http.zero =
     api_http.Ok (Some "OnPanic handler must be provided") st') /\
  (exists st',
     api_http.Initialize api_http.strict_auth_World
       (api_http.without_OnPanic api_http.sample_Ctx) api_http.zero =
     api_http.Ok (Some "Auth cannot be configured without panic handler") st').
Proof.
  split.
  - destruct (Initialize_without_OnPanic api_http.sample_World
                (api_http.without_OnPanic api_http.sample_Ctx) api_http.zero
                eq_refl) as (_ & H & _).
    eexists. eapply H; reflexivity.
  - destruct (Initialize_without_OnPanic api_http.strict_auth_World
                (api_http.without_OnPanic api_http.sample_Ctx) api_http.zero
                eq_refl) as (_ & _ & H & _).
    eexists. eapply H; reflexivity.
Defined.

Lemma Initialize_fails_fast_witness :
  exists st',
    api_http.Initialize api_http.sample_World
      (api_http.without_OnPanic api_http.sample_Ctx) api_http.zero =
    api_http.Ok (Some api_http.err_no_OnPanic) st' /\
    api_http.DefaultServeMux st' = [] /\
    api_http.stdout st' = [] /\
    api_http._ctx st' = api_http.zero_Ctx /\
    api_http.reqres_calls st' = [].
Proof.
  pose (ctx := api_http.without_OnPanic api_http.sample_Ctx).
  destruct (Initialize_fails_fast api_http.sample_World ctx
              [api_http.Initialize_Auth api_http.sample_World ctx;
               api_http.Initialize_Dirs api_http.sample_World
                 (api_http.CtxDirs ctx)]
              (api_http.check_OnPanic ctx)
              [api_http.Initialize_ReqRes api_http.sample_World ctx;
               api_http.Initialize_XHR api_http.sample_World ctx;
               api_http.Initialize_WS ctx;
               api_http.Initialize_Router api_http.sample_World ctx]
              api_http.zero _ _ _ eq_refl eq_refl eq_refl)
    as (H & Hmux & Hout & Hctx).
  eexists. split; [exact H|]. split; [exact Hmux|]. split; [exact Hout|].
  split; [exact Hctx | reflexivity].
Defined.



Lemma Initialize_Router_NotFound_witness :
  exists st' router,
    api_http.Initialize_Router api_http.sample_World api_http.sample_Ctx
      api_http.zero = api_http.Ok None st' /\
    api_http.DefaultServeMux st' = [("/", router)] /\
    mux.Match String.eqb router "/nowhere" =
      Some (api_http.makeHandler_NotFound api_http.sample_Ctx
              api_http.h_notFound).
Proof.
  destruct (Initialize_Router_NotFound api_http.sample_World
              api_http.sample_Ctx api_http.zero) as [_ H].
  destruct (H None _ eq_refl) as (router & Hmux & _ & Hnf).
  do 2 eexists. split; [reflexivity|]. split; [exact Hmux|].
  apply (Hnf "/nowhere").
  intros tpl f Hin.
  assert (Hr : In tpl (map fst (mux.routes router))).
  { apply (in_map fst) in Hin. exact Hin. }
  clear Hin Hnf. cbn in Hmux. injection Hmux as <-.
  cbn in Hr.
  repeat (destruct Hr as [<-|Hr]; [reflexivity|]). contradiction.
Defined.

(* ================================================================== *)
(** * Further properties of the code                                   *)
(* ================================================================== *)

(** ** auth.Initialize, repeated *)



(** ** api_ws.Initialize, called again and again *)

Section ApiWsFacts.

Import api_ws.

Lemma api_ws_Initialize_step call st :
  fst (Initialize (fst call) (snd call) st) =
  if both_given call
  then {| _verGetter := fst call; _onPanic := snd call |}
  else st.
Proof. destruct call as [[f|] [g|]]; reflexivity. Qed.

(** X2: [api_ws.Initialize] is all or nothing, and the last complete call
    wins. After any sequence of calls the two variables are those of the
    last call that had both a version getter and a panic handler; when no
    call had both, the state is the one before the calls. So a call that
    fails never unsets what an earlier call stored, and the variables are
    never one nil and the other not unless they started so. *)
Theorem api_ws_Initialize_last_complete_call calls st :
  Initialize_each calls st =
  match find both_given (rev calls) with
  | Some call => {| _verGetter := fst call; _onPanic := snd call |}
  | None => st
  end /\
  ((_verGetter st = None <-> _onPanic st = None) ->
   (_verGetter (Initialize_each calls st) = None <->
    _onPanic (Initialize_each calls st) = None)).
Proof.
  assert (Hlast : Initialize_each calls st =
    match find both_given (rev calls) with
    | Some call => {| _verGetter := fst call; _onPanic := snd call |}
    | None => st
    end).
  { unfold Initialize_each.
    induction calls as [|call calls IH] using rev_ind; [reflexivity|].
    rewrite fold_left_app, rev_app_distr. cbn [fold_left rev app find].
    rewrite api_ws_Initialize_step.
    destruct (both_given call); [reflexivity | exact IH]. }
  split; [exact Hlast|].
  intros Hst. rewrite Hlast.
  destruct (find both_given (rev calls)) as [[f g]|] eqn:F; [|exact Hst].
  apply find_some in F as [_ F]. cbn [fst snd _verGetter _onPanic].
  destruct f, g; try discriminate. split; discriminate.
Qed.

End ApiWsFacts.

(** ** util: identifiers *)

Section UtilFacts.

Import util.

Lemma int64_add_l x y :
  strconv.int64 (strconv.int64 x + y) = strconv.int64 (x + y).
Proof.
  unfold strconv.int64. f_equal.
  replace ((x + 2 ^ 63) mod 2 ^ 64 - 2 ^ 63 + y + 2 ^ 63)
    with ((x + 2 ^ 63) mod 2 ^ 64 + y) by ring.
  rewrite Z.add_mod_idemp_l by (vm_compute; discriminate).
  f_equal. ring.
Qed.

Lemma int64_id x : - 2 ^ 63 <= x < 2 ^ 63 -> strconv.int64 x = x.
Proof.
  intros H. unfold strconv.int64.
  change (2 ^ 63) with 9223372036854775808 in *.
  change (2 ^ 64) with 18446744073709551616.
  rewrite Z.mod_small; lia.
Qed.

Lemma int64_window_inj a i j :
  0 <= i < 2 ^ 64 -> 0 <= j < 2 ^ 64 ->
  strconv.int64 (a + i) = strconv.int64 (a + j) -> i = j.
Proof.
  unfold strconv.int64.
  change (2 ^ 63) with 9223372036854775808.
  change (2 ^ 64) with 18446744073709551616.
  intros Hi Hj H.
  assert (E : (a + i + 9223372036854775808) mod 18446744073709551616 =
              (a + j + 9223372036854775808) mod 18446744073709551616)
    by lia.
  clear H. revert E. Z.div_mod_to_equations. lia.
Qed.

Lemma NewID_times_S n st :
  NewID_times (S n) st =
  (fst (NewID_times n (set_lastID (strconv.int64 (_lastID st + 1)) st)),
   strconv.int64 (_lastID st + 1)
   :: snd (NewID_times n (set_lastID (strconv.int64 (_lastID st + 1)) st))).
Proof.
  cbn [NewID_times]. unfold NewID.
  destruct (NewID_times n _) as [st' ids]. reflexivity.
Qed.

(** The ids of [n] calls in a row: the counter plus 1, 2, ..., wrapped. *)
Lemma NewID_times_ids n : forall st,
  snd (NewID_times n st) =
  map (fun k => strconv.int64 (_lastID st + Z.of_nat k)) (seq 1 n) /\
  _baseID (fst (NewID_times n st)) = _baseID st.
Proof.
  induction n as [|n IH]; intros st; [split; reflexivity|].
  rewrite NewID_times_S. cbn [fst snd].
  destruct (IH (set_lastID (strconv.int64 (_lastID st + 1)) st))
    as [IH1 IH2].
  split; [|exact IH2].
  rewrite IH1. cbn [seq map]. f_equal.
  rewrite <- (seq_shift n 1), map_map. apply map_ext. intros k.
  cbn [_lastID set_lastID]. rewrite int64_add_l. f_equal. lia.
Qed.

Lemma NoDup_ids_in_window {A} (g : Z -> A) a n :
  (forall x y, g x = g y -> x = y) ->
  Z.of_nat n <= 2 ^ 64 ->
  NoDup (map (fun k => g (strconv.int64 (a + Z.of_nat k))) (seq 1 n)).
Proof.
  intros Hg Hn.
  apply NoDup_map_NoDup_ForallPairs; [|apply seq_NoDup].
  intros x y Hx Hy H. apply in_seq in Hx, Hy. apply Hg in H.
  replace (a + Z.of_nat x) with (a + 1 + (Z.of_nat x - 1)) in H by ring.
  replace (a + Z.of_nat y) with (a + 1 + (Z.of_nat y - 1)) in H by ring.
  apply int64_window_inj in H; lia.
Qed.

(** X3: the random base of [init] is dead: whatever the generator
    returns, the ids that follow are 1, 2, 3, ... in the order of the
    calls, as long as fewer than 2^63 ids are drawn. *)
Theorem NewID_counts_from_one rand63 n :
  Z.of_nat n < 2 ^ 63 ->
  snd (NewID_times n (init rand63)) = map Z.of_nat (seq 1 n).
Proof.
  intros Hn. rewrite (proj1 (NewID_times_ids n (init rand63))).
  apply map_ext_in. intros k Hk. apply in_seq in Hk.
  cbn [init set_baseID set_lastID _lastID _baseID zero_IDs].
  apply int64_id. change (2 ^ 63) with 9223372036854775808 in *. lia.
Qed.

(** X4: [NewID] does not repeat an id within 2^64 calls in a row, from
    any state of the counter: the ids are the counter plus 1, 2, ...
    wrapped to [int64], so after the largest [int64] comes the smallest,
    and they are pairwise different. [_baseID] is never written. *)
Theorem NewID_never_repeats n st :
  Z.of_nat n <= 2 ^ 64 ->
  NoDup (snd (NewID_times n st)) /\
  _baseID (fst (NewID_times n st)) = _baseID st /\
  (forall k, (k < n)%nat ->
     nth k (snd (NewID_times n st)) 0 =
     strconv.int64 (_lastID st + Z.of_nat (S k))) /\
  (_lastID st = 2 ^ 63 - 1 -> snd (NewID st) = - 2 ^ 63).
Proof.
  intros Hn. destruct (NewID_times_ids n st) as [Hids Hbase].
  split; [|split; [exact Hbase|split]].
  - rewrite Hids. apply (NoDup_ids_in_window (fun x => x)); auto.
  - intros k Hk. rewrite Hids.
    rewrite (nth_indep _ 0 (strconv.int64 (_lastID st + Z.of_nat 0)))
      by (rewrite length_map, length_seq; exact Hk).
    rewrite (map_nth (fun k => strconv.int64 (_lastID st + Z.of_nat k))).
    rewrite seq_nth by exact Hk. reflexivity.
  - intros H. unfold NewID. cbn [snd]. rewrite H. reflexivity.
Qed.

Lemma itoa_inj x y : itoa x = itoa y -> x = y.
Proof.
  unfold itoa. intros H. apply DecimalZ.to_int_inj.
  assert (E : Some (Z.to_int x) = Some (Z.to_int y)).
  { rewrite <- !DecimalString.NilEmpty.isi, H. reflexivity. }
  injection E as E. exact E.
Qed.

Lemma string_length_app (a b : string) :
  String.length (a ++ b)%string = (String.length a + String.length b)%nat.
Proof. induction a as [|x a IH]; cbn; [reflexivity | now rewrite IH]. Qed.

Lemma string_app_inv_tail (a b c : string) :
  (a ++ c)%string = (b ++ c)%string -> a = b.
Proof.
  revert b. induction a as [|x a IH]; intros [|y b] H; cbn in H.
  - reflexivity.
  - exfalso. apply (f_equal String.length) in H.
    cbn in H. rewrite string_length_app in H. lia.
  - exfalso. apply (f_equal String.length) in H.
    cbn in H. rewrite string_length_app in H. lia.
  - injection H as -> H. f_equal. apply IH. exact H.
Qed.

Lemma Sprintf_s_int64_inj x y :
  Sprintf_s_int64 x = Sprintf_s_int64 y -> x = y.
Proof.
  unfold Sprintf_s_int64. intros H. cbn in H.
  injection H as H. apply string_app_inv_tail in H.
  apply itoa_inj. exact H.
Qed.

Lemma NewUUID_each_all_failed outcomes : forall st,
  Forall (fun o => snd o <> None) outcomes ->
  NewUUID_each outcomes st =
  (fst (NewID_times (List.length outcomes) st),
   map Sprintf_s_int64 (snd (NewID_times (List.length outcomes) st))).
Proof.
  induction outcomes as [|[out err] outcomes IH]; intros st H;
    [reflexivity|].
  inversion H as [|? ? Herr Hrest]; subst. cbn [snd] in Herr.
  destruct err as [e|]; [|contradiction].
  cbn [NewUUID_each NewUUID List.length]. rewrite NewID_times_S.
  unfold NewID. rewrite (IH _ Hrest). reflexivity.
Qed.

(** X5: what [NewUUID] returns. When the command succeeds it returns the
    bytes the command wrote, as they are, and draws no id. When the
    command fails it draws exactly one id from [NewID], and what it
    returns is not the decimal text of that id: the id goes through the
    verb for strings, so the text is the verb, the type and the value,
    and [strconv.Atoi] never reads it back as a number. *)
Theorem NewUUID_outcomes out err st :
  (err = None -> NewUUID (out, err) st = (st, out)) /\
  (err <> None ->
   NewUUID (out, err) st =
     (fst (NewID st), ("%!s(int64=" ++ itoa (snd (NewID st)) ++ ")")%string) /\
   _lastID (fst (NewUUID (out, err) st)) = strconv.int64 (_lastID st + 1) /\
   snd (NewUUID (out, err) st) <> itoa (snd (NewID st)) /\
   (forall sz v,
      strconv.Atoi sz (snd (NewUUID (out, err) st)) <> (v, None))).
Proof.
  split.
  - intros ->. reflexivity.
  - intros Herr. destruct err as [e|]; [|contradiction].
    cbn [NewUUID]. unfold NewID. cbn [fst snd].
    split; [reflexivity|]. split; [reflexivity|]. split.
    + intros H. apply (f_equal String.length) in H.
      unfold Sprintf_s_int64 in H. cbn in H.
      rewrite string_length_app in H. cbn in H. lia.
    + intros sz v H. apply Atoi_ok_iff in H as [H _].
      unfold Sprintf_s_int64 in H. discriminate H.
Qed.

(** X6: when the command fails every time, the texts [NewUUID] returns
    in up to 2^64 calls in a row are pairwise different. *)
Theorem NewUUID_fallbacks_differ outcomes st :
  Forall (fun o => snd o <> None) outcomes ->
  Z.of_nat (List.length outcomes) <= 2 ^ 64 ->
  NoDup (snd (NewUUID_each outcomes st)).
Proof.
  intros Hfail Hlen. rewrite (NewUUID_each_all_failed _ _ Hfail). cbn [snd].
  rewrite (proj1 (NewID_times_ids _ st)), map_map.
  apply (NoDup_ids_in_window Sprintf_s_int64); [|exact Hlen].
  apply Sprintf_s_int64_inj.
Qed.

End UtilFacts.

Lemma NewID_counts_from_one_witness :
  snd (util.NewID_times 3 (util.init 1234567)) = [1; 2; 3].
Proof. apply (NewID_counts_from_one 1234567 3). reflexivity. Defined.

Lemma NewID_never_repeats_witness :
  NoDup (snd (util.NewID_times 3
                (util.set_lastID (2 ^ 63 - 2) util.zero_IDs))) /\
  snd (util.NewID_times 3 (util.set_lastID (2 ^ 63 - 2) util.zero_IDs)) =
    [2 ^ 63 - 1; - 2 ^ 63; - 2 ^ 63 + 1].
Proof.
  split; [|reflexivity].
  apply (NewID_never_repeats 3
           (util.set_lastID (2 ^ 63 - 2) util.zero_IDs)).
  intros H. discriminate H.
Defined.

Lemma NewUUID_fallbacks_differ_witness :
  NoDup (snd (util.NewUUID_each
                [("", Some "exec: uuidgen not found");
                 ("", Some "exec: uuidgen not found")]
                (util.init 0))) /\
  snd (util.NewUUID_each
         [("", Some "exec: uuidgen not found");
          ("", Some "exec: uuidgen not found")]
         (util.init 0)) = ["%!s(int64=1)"; "%!s(int64=2)"].
Proof.
  split; [|reflexivity].
  apply NewUUID_fallbacks_differ.
  - repeat constructor; discriminate.
  - intros H. discriminate H.
Defined.

(** ** api_http: the startup as a whole *)

Section StartupFacts.

Import api_http.
Local Open Scope go_scope.

Variable W : World.

Lemma Initialize_Auth_error ctx st e st1 :
  Initialize_Auth W ctx st = Ok (Some e) st1 ->
  e = err_cookie_name \/ e = err_cookie_store_id \/
  snd (call_auth_Initialize W ctx (auth_pkg st)) = Some e.
Proof.
  rewrite Initialize_Auth_unfold.
  destruct (_ =? _)%string; [intros [= <- _]; auto|].
  destruct (_ =? _)%string; [intros [= <- _]; auto|].
  cbv zeta. intros [= -> _]. auto.
Qed.

Lemma Initialize_Dirs_unfold dirs st :
  Initialize_Dirs W dirs st =
  match reseer_New W (path_Join W (VersionFileDir dirs) "reseer_track.csv")
          (AppWatchNotify dirs) onAppVersionChanged with
  | (w, Some e) => Ok (Some e) (set_versionWatcher w st)
  | (Some seer, None) =>
      Ok None (set_appVersion (reseer.VersionTxt seer)
                 (set_versionWatcher (Some seer) st))
  | (None, None) => Panic "nil pointer dereference"
  end.
Proof.
  unfold Initialize_Dirs, bind, modify, ret, setAppVersion, modify, panic.
  destruct (reseer_New W _ _ _) as [[w|] [e|]]; reflexivity.
Qed.

Lemma Initialize_WS_with_OnPanic ctx f st :
  OnPanic ctx = Some f ->
  Initialize_WS ctx st =
  Ok None (set_api_ws_pkg
             {| api_ws._verGetter := GetVersion;
                api_ws._onPanic := OnPanic ctx |} st).
Proof.
  intros H. unfold Initialize_WS, in_api_ws, api_ws.Initialize, GetVersion.
  rewrite H. reflexivity.
Qed.

(** X7: the errors that come out of [api_http.Initialize]. An error it
    returns is one of its own three messages (cookie name, cookie store
    id, OnPanic), or the error that the call of [auth.Initialize],
    [reseer.New], [reqres.Initialize] or [api_xhr.Initialize] returned.
    The two errors of [api_ws.Initialize] never come out: the panic
    handler is checked before the call and the version getter is a
    function of the package; and the router step returns none. *)
Theorem Initialize_error_sources ctx st e st' :
  Initialize W ctx st = Ok (Some e) st' ->
  e = err_cookie_name \/
  e = err_cookie_store_id \/
  snd (call_auth_Initialize W ctx (auth_pkg st)) = Some e \/
  snd (reseer_New W
         (path_Join W (VersionFileDir (CtxDirs ctx)) "reseer_track.csv")
         (AppWatchNotify (CtxDirs ctx)) onAppVersionChanged) = Some e \/
  e = err_no_OnPanic \/
  reqres_Initialize W (OnPanic ctx) = Some e \/
  api_xhr_Initialize W (OnPanic ctx) = Some e.
Proof.
  unfold Initialize, bind, ret.
  destruct (Initialize_Auth W ctx st) as [[e1|] st1|msg] eqn:A;
    [intros [= <- _]| |discriminate].
  { apply Initialize_Auth_error in A. tauto. }
  rewrite Initialize_Dirs_unfold.
  destruct (reseer_New W _ _ _) as [[seer|] [e2|]]; cbn [snd];
    try discriminate; try (intros [= <- _]; tauto).
  destruct (OnPanic ctx) as [f|] eqn:P; [|intros [= <- _]; tauto].
  unfold Initialize_ReqRes, Initialize_XHR, bind, modify, ret.
  rewrite P.
  destruct (reqres_Initialize W (Some f)) as [e3|];
    [intros [= <- _]; tauto|].
  destruct (api_xhr_Initialize W (Some f)) as [e4|];
    [intros [= <- _]; tauto|].
  rewrite (Initialize_WS_with_OnPanic ctx f _ P).
  match goal with
  | |- context [Initialize_Router W ctx ?s] =>
      destruct (Initialize_Router W ctx s) as [[e5|] st5|msg] eqn:R
  end; try discriminate.
  apply Initialize_Router_returns_nil in R. discriminate.
Qed.

(** The state a successful [Initialize] leaves, step by step. *)
Lemma Initialize_success_state ctx st st' :
  Initialize W ctx st = Ok None st' ->
  exists a seer f,
    CookieName (Auth ctx) <> "" /\
    CookieStoreId (Auth ctx) <> "" /\
    call_auth_Initialize W ctx (auth_pkg st) = (a, None) /\
    reseer_New W
      (path_Join W (VersionFileDir (CtxDirs ctx)) "reseer_track.csv")
      (AppWatchNotify (CtxDirs ctx)) onAppVersionChanged
      = (Some seer, None) /\
    OnPanic ctx = Some f /\
    reqres_Initialize W (OnPanic ctx) = None /\
    api_xhr_Initialize W (OnPanic ctx) = None /\
    registered "/" st = false /\
    st' =
      {| auth_pkg := auth.AddListener_DeAuth api_ws.CloseAuthdConn a;
         api_ws_pkg := {| api_ws._verGetter := GetVersion;
                          api_ws._onPanic := OnPanic ctx |};
         reqres_calls := reqres_calls st ++ [OnPanic ctx];
         api_xhr_calls := api_xhr_calls st ++ [OnPanic ctx];
         _ctx := ctx;
         _versionWatcher := Some seer;
         _appVersion := reseer.VersionTxt seer;
         DefaultServeMux :=
           DefaultServeMux st ++ [("/", fst (build_router W ctx))];
         stdout := stdout st ++ [snd (build_router W ctx)] |}.
Proof.
  unfold Initialize, bind, ret. rewrite Initialize_Auth_unfold.
  destruct (String.eqb_spec (CookieName (Auth ctx)) "") as [E1|N1];
    [discriminate|].
  destruct (String.eqb_spec (CookieStoreId (Auth ctx)) "") as [E2|N2];
    [discriminate|].
  cbv zeta.
  destruct (call_auth_Initialize W ctx (auth_pkg st)) as [a [e1|]] eqn:AI;
    cbn [fst snd]; [discriminate|].
  rewrite Initialize_Dirs_unfold.
  destruct (reseer_New W _ _ _) as [[seer|] [e2|]] eqn:New;
    try discriminate.
  destruct (OnPanic ctx) as [f|] eqn:P; [|discriminate].
  unfold Initialize_ReqRes, Initialize_XHR, bind, modify, ret. rewrite P.
  destruct (reqres_Initialize W (Some f)) as [e3|] eqn:RR; [discriminate|].
  destruct (api_xhr_Initialize W (Some f)) as [e4|] eqn:XR; [discriminate|].
  rewrite (Initialize_WS_with_OnPanic ctx f _ P).
  rewrite Initialize_Router_unfold.
  match goal with
  | |- context [registered "/" ?s] =>
      destruct (registered "/" s) eqn:Rg; [discriminate|]
  end.
  intros [= <-]. exists a, seer, f.
  repeat match goal with |- _ /\ _ => split end;
    try assumption; try reflexivity.
  rewrite P. reflexivity.
Qed.

(** X8: what a successful [api_http.Initialize] has done. The context had
    a cookie name, a cookie store id and a panic handler, and the call of
    [auth.Initialize] returned nil; afterwards the state of [auth] is
    the one that call left with [api_ws.CloseAuthdConn] added to the
    de-auth listeners, once; the watcher that [reseer.New] returned is in
    [_versionWatcher] and its version text is the application version;
    [reqres], [api_xhr] and [api_ws] each received the panic handler,
    once; the router with the routes of the context is registered at the
    root, last, on a multiplexer whose root was free; the summary was
    printed, once; and [_ctx] is the context. *)
Theorem Initialize_success ctx st st' :
  Initialize W ctx st = Ok None st' ->
  _ctx st' = ctx /\
  OnPanic ctx <> None /\
  CookieName (Auth ctx) <> "" /\
  CookieStoreId (Auth ctx) <> "" /\
  snd (call_auth_Initialize W ctx (auth_pkg st)) = None /\
  auth_pkg st' =
    auth.AddListener_DeAuth api_ws.CloseAuthdConn
      (fst (call_auth_Initialize W ctx (auth_pkg st))) /\
  auth._deauthListeners (auth_pkg st') =
    (auth._deauthListeners (fst (call_auth_Initialize W ctx (auth_pkg st)))
     ++ [api_ws.CloseAuthdConn])%list /\
  (exists seer,
     fst (reseer_New W
            (path_Join W (VersionFileDir (CtxDirs ctx)) "reseer_track.csv")
            (AppWatchNotify (CtxDirs ctx)) onAppVersionChanged) = Some seer /\
     _versionWatcher st' = Some seer /\
     _appVersion st' = reseer.VersionTxt seer) /\
  api_ws_pkg st' = {| api_ws._verGetter := GetVersion;
                      api_ws._onPanic := OnPanic ctx |} /\
  reqres_calls st' = (reqres_calls st ++ [OnPanic ctx])%list /\
  api_xhr_calls st' = (api_xhr_calls st ++ [OnPanic ctx])%list /\
  registered "/" st = false /\
  (exists router,
     DefaultServeMux st' = (DefaultServeMux st ++ [("/", router)])%list /\
     mux.routes router = router_routes W ctx) /\
  (exists summ,
     stdout st' = (stdout st ++ [summ])%list /\
     util.lines summ = summary_lines W ctx).
Proof.
  intros H.
  apply Initialize_success_state in H
    as (a & seer & f & N1 & N2 & AI & New & P & RR & XR & Rg & ->).
  cbn [_ctx auth_pkg api_ws_pkg reqres_calls api_xhr_calls _versionWatcher
       _appVersion DefaultServeMux stdout].
  rewrite build_router_spec, AI. cbn [fst snd].
  repeat match goal with |- _ /\ _ => split end;
    try reflexivity; try assumption.
  - rewrite P. discriminate.
  - exists seer. rewrite New. repeat split.
  - eexists. split; reflexivity.
  - eexists. split; reflexivity.
Qed.

Lemma Initialize_needs_free_root ctx st st' :
  registered "/" st = true -> Initialize W ctx st <> Ok None st'.
Proof.
  intros Hr H.
  apply Initialize_success_state in H
    as (a & seer & f & _ & _ & _ & _ & _ & _ & _ & Rg & _).
  congruence.
Qed.

Lemma registered_after_success ctx st st' :
  Initialize W ctx st = Ok None st' -> registered "/" st' = true.
Proof.
  intros H.
  apply Initialize_success_state in H
    as (a & seer & f & _ & _ & _ & _ & _ & _ & _ & _ & ->).
  unfold registered. cbn [DefaultServeMux].
  rewrite existsb_app. cbn. apply orb_true_r.
Qed.

(** Every step of a second [Initialize] with the same context passes
    again, up to the router, when the call of [auth.Initialize] returns
    nil again; when it returns an error, that error comes out. *)
Lemma Initialize_again ctx st st' :
  Initialize W ctx st = Ok None st' ->
  match snd (call_auth_Initialize W ctx (auth_pkg st')) with
  | None => Initialize W ctx st' = Panic "http: multiple registrations"
  | Some e => exists st2, Initialize W ctx st' = Ok (Some e) st2
  end.
Proof.
  intros H. pose proof (registered_after_success _ _ _ H) as Rg.
  apply Initialize_success_state in H
    as (a & seer & f & N1 & N2 & AI & New & P & RR & XR & _ & E).
  clear E.
  unfold Initialize, bind, ret. rewrite Initialize_Auth_unfold.
  destruct (String.eqb_spec (CookieName (Auth ctx)) ""); [contradiction|].
  destruct (String.eqb_spec (CookieStoreId (Auth ctx)) ""); [contradiction|].
  cbv zeta.
  destruct (call_auth_Initialize W ctx (auth_pkg st')) as [a' [e'|]];
    cbn [snd fst]; [eexists; reflexivity|].
  rewrite Initialize_Dirs_unfold, New, P.
  unfold Initialize_ReqRes, Initialize_XHR, bind, modify, ret.
  rewrite P in RR, XR. rewrite P, RR, XR.
  rewrite (Initialize_WS_with_OnPanic ctx f _ P).
  rewrite Initialize_Router_unfold.
  match goal with
  | |- context [registered "/" ?s] =>
      change (registered "/" s) with (registered "/" st')
  end.
  rewrite Rg. reflexivity.
Qed.

End StartupFacts.

(** X9: [api_http.Initialize] succeeds at most once in a process. A
    success leaves the root pattern registered on the default
    multiplexer, and from then on no call of [Initialize] succeeds,
    whatever context it is given and whatever the collaborators answer:
    a call that gets as far as the router panics in [http.Handle]. With
    the same context and the same answers of the collaborators, the
    second call panics there when its call of [auth.Initialize] returns
    nil again, and returns the error of that call when it does not. *)
Theorem Initialize_only_once W W2 ctx ctx2 st st1 :
  api_http.Initialize W ctx st = api_http.Ok None st1 ->
  api_http.registered "/" st1 = true /\
  (forall st2, api_http.Initialize W2 ctx2 st1 <> api_http.Ok None st2) /\
  match snd (api_http.call_auth_Initialize W ctx (api_http.auth_pkg st1)) with
  | None => api_http.Initialize W ctx st1 =
              api_http.Panic "http: multiple registrations"
  | Some e => exists st2,
                api_http.Initialize W ctx st1 = api_http.Ok (Some e) st2
  end.
Proof.
  intros H. pose proof (registered_after_success _ _ _ _ H) as Rg.
  split; [exact Rg|]. split.
  - intros st2. exact (Initialize_needs_free_root W2 ctx2 st1 st2 Rg).
  - exact (Initialize_again _ _ _ _ H).
Qed.

Lemma Initialize_only_once_witness :
  exists st1,
    api_http.Initialize api_http.sample_World api_http.sample_Ctx
      api_http.zero = api_http.Ok None st1 /\
    api_http.Initialize api_http.sample_World api_http.sample_Ctx st1 =
      api_http.Panic "http: multiple registrations".
Proof.
  eexists. split; [reflexivity|].
  exact (proj2 (proj2
    (Initialize_only_once api_http.sample_World api_http.sample_World
       api_http.sample_Ctx api_http.sample_Ctx api_http.zero _ eq_refl))).
Defined.

Lemma Initialize_success_witness :
  exists st',
    api_http.Initialize api_http.sample_World api_http.sample_Ctx
      api_http.zero = api_http.Ok None st' /\
    api_http._ctx st' = api_http.sample_Ctx /\
    api_http._appVersion st' = "v1" /\
    auth._deauthListeners (api_http.auth_pkg st') = [api_ws.CloseAuthdConn].
Proof.
  eexists. split; [reflexivity|].
  destruct (Initialize_success api_http.sample_World api_http.sample_Ctx
              api_http.zero _ eq_refl)
    as (Hctx & _ & _ & _ & _ & _ & Hl & (seer & Hnew & _ & Hv) & _).
  split; [exact Hctx|]. split; [|exact Hl].
  rewrite Hv. injection Hnew as <-. reflexivity.
Defined.

Lemma Initialize_error_sources_witness :
  exists st',
    api_http.Initialize api_http.no_watcher_World api_http.sample_Ctx
      api_http.zero = api_http.Ok (Some "no such directory") st' /\
    snd (api_http.reseer_New api_http.no_watcher_World
           "app/reseer_track.csv" "" api_http.onAppVersionChanged)
      = Some "no such directory".
Proof.
  eexists. split; [reflexivity|].
  destruct (Initialize_error_sources api_http.no_watcher_World
              api_http.sample_Ctx api_http.zero "no such directory" _ eq_refl)
    as [H|[H|[H|[H|[H|[H|H]]]]]]; try discriminate H.
  exact H.
Defined.

(** ** api_http: failure half-way, and shutdown *)

Section ShutdownFacts.

Import api_http.
Local Open Scope go_scope.

Variable W : World.

(** X10: [api_http.Initialize] does not roll back. When it returns an
    error after the authentication step has passed, the state of [auth]
    is the one that step left: what the call of [auth.Initialize] made
    of it, with the de-auth listener registered; and when the watcher was
    created too, it stays in [_versionWatcher] as [reseer.New] returned
    it, not stopped, with its version text as the application version. *)
Theorem Initialize_no_rollback ctx st e st' st1 :
  Initialize W ctx st = Ok (Some e) st' ->
  Initialize_Auth W ctx st = Ok None st1 ->
  auth_pkg st' = auth_pkg st1 /\
  auth_pkg st' =
    auth.AddListener_DeAuth api_ws.CloseAuthdConn
      (fst (call_auth_Initialize W ctx (auth_pkg st))) /\
  auth._deauthListeners (auth_pkg st') =
    (auth._deauthListeners (fst (call_auth_Initialize W ctx (auth_pkg st)))
     ++ [api_ws.CloseAuthdConn])%list /\
  (forall seer,
     reseer_New W
       (path_Join W (VersionFileDir (CtxDirs ctx)) "reseer_track.csv")
       (AppWatchNotify (CtxDirs ctx)) onAppVersionChanged
       = (Some seer, None) ->
     _versionWatcher st' = Some seer /\
     _appVersion st' = reseer.VersionTxt seer).
Proof.
  intros H HA.
  assert (Hframe : auth_pkg st' = auth_pkg st1 /\
    (forall seer,
       reseer_New W
         (path_Join W (VersionFileDir (CtxDirs ctx)) "reseer_track.csv")
         (AppWatchNotify (CtxDirs ctx)) onAppVersionChanged
         = (Some seer, None) ->
       _versionWatcher st' = Some seer /\
       _appVersion st' = reseer.VersionTxt seer)).
  { revert H. unfold Initialize, bind, ret. rewrite HA.
    rewrite Initialize_Dirs_unfold.
    destruct (reseer_New W _ _ _) as [[seer|] [e2|]]; try discriminate;
      try (intros [= _ <-]; split; [reflexivity | discriminate]).
    destruct (OnPanic ctx) as [f|] eqn:P;
      [|intros [= _ <-]; split; [reflexivity|];
        intros s [= <-]; split; reflexivity].
    unfold Initialize_ReqRes, Initialize_XHR, bind, modify, ret.
    rewrite P.
    destruct (reqres_Initialize W (Some f)) as [e3|];
      [intros [= _ <-]; split; [reflexivity|];
        intros s [= <-]; split; reflexivity|].
    destruct (api_xhr_Initialize W (Some f)) as [e4|];
      [intros [= _ <-]; split; [reflexivity|];
        intros s [= <-]; split; reflexivity|].
    rewrite (Initialize_WS_with_OnPanic ctx f _ P).
    rewrite Initialize_Router_unfold.
    destruct (registered _ _); discriminate. }
  destruct Hframe as [Hauth Hw]. rewrite Hauth.
  split; [reflexivity|].
  revert HA. rewrite Initialize_Auth_unfold.
  destruct (_ =? _)%string; [discriminate|].
  destruct (_ =? _)%string; [discriminate|].
  cbv zeta. intros [= _ <-]. cbn [auth_pkg set_auth_pkg].
  split; [reflexivity|]. split; [reflexivity|exact Hw].
Qed.

(** X11: a failed [Initialize_Dirs] forgets the watcher it had. When
    [reseer.New] returns an error, [_versionWatcher] is overwritten all
    the same with what came beside the error, and the application
    version is left alone; when that is nil, the watcher held before is
    out of reach, and [DeInitialize] afterwards stops nothing. *)
Theorem Initialize_Dirs_error_overwrites_watcher dirs st e st' :
  Initialize_Dirs W dirs st = Ok (Some e) st' ->
  _versionWatcher st' =
    fst (reseer_New W (path_Join W (VersionFileDir dirs) "reseer_track.csv")
           (AppWatchNotify dirs) onAppVersionChanged) /\
  _appVersion st' = _appVersion st /\
  (_versionWatcher st' = None -> DeInitialize st' = Ok tt st').
Proof.
  rewrite Initialize_Dirs_unfold.
  destruct (reseer_New W _ _ _) as [[seer|] [e2|]]; try discriminate;
    intros [= _ <-]; cbn [fst]; (split; [reflexivity|]);
    (split; [reflexivity|]); intros Hnil;
    rewrite DeInitialize_unfold, Hnil; reflexivity.
Qed.

End ShutdownFacts.

(** X12: [DeInitialize] undoes one thing only. After a successful
    [Initialize] it stops the watcher that [Initialize] started and
    leaves the rest as it was: the router registered at the root,
    [_ctx], the de-auth listener, the handlers given to [api_ws]. So the
    root pattern stays taken, and no [Initialize] after it succeeds. *)
Theorem DeInitialize_after_Initialize W W2 ctx ctx2 st st1 :
  api_http.Initialize W ctx st = api_http.Ok None st1 ->
  exists seer st2,
    api_http._versionWatcher st1 = Some seer /\
    api_http.DeInitialize st1 = api_http.Ok tt st2 /\
    api_http._versionWatcher st2 = Some (reseer.Stop seer) /\
    api_http._ctx st2 = ctx /\
    api_http.DefaultServeMux st2 = api_http.DefaultServeMux st1 /\
    api_http.auth_pkg st2 = api_http.auth_pkg st1 /\
    api_http.api_ws_pkg st2 = api_http.api_ws_pkg st1 /\
    (forall st3,
       api_http.Initialize W2 ctx2 st2 <> api_http.Ok None st3).
Proof.
  intros H. pose proof (registered_after_success _ _ _ _ H) as Rg.
  apply Initialize_success_state in H
    as (a & seer & f & _ & _ & _ & _ & _ & _ & _ & _ & E).
  subst st1.
  exists seer. eexists. split; [reflexivity|].
  split; [rewrite DeInitialize_unfold; reflexivity|].
  repeat (split; [reflexivity|]).
  intros st3. apply Initialize_needs_free_root. exact Rg.
Qed.

Lemma Initialize_no_rollback_witness :
  exists st',
    api_http.Initialize api_http.no_reqres_World api_http.sample_Ctx
      api_http.zero = api_http.Ok (Some "reqres: not ready") st' /\
    auth._deauthListeners (api_http.auth_pkg st') = [api_ws.CloseAuthdConn] /\
    api_http._versionWatcher st' = Some api_http.sample_Seer /\
    api_http._appVersion st' = "v1".
Proof.
  eexists. split; [reflexivity|].
  destruct (Initialize_no_rollback api_http.no_reqres_World
              api_http.sample_Ctx api_http.zero _ _ _ eq_refl eq_refl)
    as (_ & _ & Hl & Hw).
  split; [exact Hl|].
  exact (Hw api_http.sample_Seer eq_refl).
Defined.

Lemma Initialize_Dirs_error_overwrites_watcher_witness :
  let st := api_http.set_versionWatcher (Some api_http.sample_Seer)
              api_http.zero in
  exists st',
    api_http.Initialize_Dirs api_http.no_watcher_World
      (api_http.CtxDirs api_http.sample_Ctx) st =
    api_http.Ok (Some "no such directory") st' /\
    api_http._versionWatcher st' = None /\
    api_http.DeInitialize st' = api_http.Ok tt st'.
Proof.
  cbv zeta. eexists. split; [reflexivity|].
  destruct (Initialize_Dirs_error_overwrites_watcher
              api_http.no_watcher_World
              (api_http.CtxDirs api_http.sample_Ctx)
              (api_http.set_versionWatcher (Some api_http.sample_Seer)
                 api_http.zero) _ _ eq_refl) as (Hw & _ & Hd).
  split; [exact Hw | exact (Hd Hw)].
Defined.

Lemma DeInitialize_after_Initialize_witness :
  exists st1 st2,
    api_http.Initialize api_http.sample_World api_http.sample_Ctx
      api_http.zero = api_http.Ok None st1 /\
    api_http.DeInitialize st1 = api_http.Ok tt st2 /\
    option_map reseer.running (api_http._versionWatcher st2) = Some false /\
    api_http.registered "/" st2 = true.
Proof.
  destruct (DeInitialize_after_Initialize api_http.sample_World
              api_http.sample_World api_http.sample_Ctx api_http.sample_Ctx
              api_http.zero _ eq_refl)
    as (seer & st2 & _ & Hd & Hw & _).
  eexists. exists st2. split; [reflexivity|]. split; [exact Hd|].
  split; [rewrite Hw; reflexivity|].
  revert Hd. rewrite DeInitialize_unfold. cbn. intros [= <-]. reflexivity.
Defined.

(** ** api_http: which handler the router picks *)

Section DispatchFacts.

Import api_http.

Variable W : World.

Lemma first_match_in (rs : list (string * HandlerFunc)) path f :
  mux.first_match (route_matches W) rs path = Some f ->
  exists tpl, In (tpl, f) rs /\ route_matches W tpl path = true.
Proof.
  induction rs as [|[tpl g] rs IH]; cbn; [discriminate|].
  destruct (route_matches W tpl path) eqn:E.
  - intros [= <-]. exists tpl. auto.
  - intros H. destruct (IH H) as (t & Hin & Hm). exists t. auto.
Qed.

Lemma first_match_hit (rs : list (string * HandlerFunc)) path tpl f :
  In (tpl, f) rs -> route_matches W tpl path = true ->
  exists g, mux.first_match (route_matches W) rs path = Some g.
Proof.
  induction rs as [|[t g] rs IH]; intros Hin Hm; [contradiction|].
  cbn. destruct (route_matches W t path) eqn:E; [eauto|].
  destruct Hin as [[= -> ->]|Hin]; [congruence | auto].
Qed.

Lemma installed_router ctx st err st' :
  Initialize_Router W ctx st = Ok err st' ->
  DefaultServeMux st' =
    (DefaultServeMux st ++
     [("/", {| mux.routes := router_routes W ctx;
               mux.NotFoundHandler :=
                 Some (makeHandler_NotFound ctx
                         (HTML_NotFound (Handlers_HTML ctx))) |})])%list.
Proof.
  rewrite Initialize_Router_unfold, build_router_spec.
  destruct (registered _ _); [discriminate|].
  intros [= _ <-]. reflexivity.
Qed.

(** X13: public HTML routes come first. On the router that
    [Initialize_Router] installs, a path that a synonym of some HTML
    Public route accepts is dispatched to the handler of an HTML Public
    route, made without the auth gate, whatever the other tables hold: an
    HTML Authd, XHR, WS or FILE route that accepts the same path is never
    reached. *)
Theorem public_html_routes_win ctx st err st' :
  Initialize_Router W ctx st = Ok err st' ->
  exists router,
    DefaultServeMux st' = (DefaultServeMux st ++ [("/", router)])%list /\
    forall path e p,
      In e (HTML_Public (Handlers_HTML ctx)) ->
      In p (routeSynonyms W (fst e)) ->
      route_matches W p path = true ->
      exists e',
        In e' (HTML_Public (Handlers_HTML ctx)) /\
        mux.Match (route_matches W) router path =
          Some (makeHandler_HTML ctx (snd e') false).
Proof.
  intros H. apply installed_router in H. eexists. split; [exact H|].
  intros path e p He Hp Hm. unfold mux.Match. cbn [mux.routes].
  unfold router_routes. rewrite first_match_app.
  assert (Hin : In (p, makeHandler_HTML ctx (snd e) false)
                   (flat_map (synonym_routes W ctx false)
                      (HTML_Public (Handlers_HTML ctx)))).
  { apply in_flat_map. exists e. split; [exact He|].
    unfold synonym_routes.
    apply (in_map (fun p => (p, makeHandler_HTML ctx (snd e) false))).
    exact Hp. }
  destruct (first_match_hit _ _ _ _ Hin Hm) as (g & Hg). rewrite Hg.
  apply first_match_in in Hg as (tpl & Hg & _).
  apply in_flat_map in Hg as (e' & He' & Hg).
  unfold synonym_routes in Hg. apply in_map_iff in Hg as (q & [= _ <-] & _).
  exists e'. split; [exact He' | reflexivity].
Qed.

(** X14: the router [Initialize_Router] installs resolves every path, and
    only to handlers it was given: the handler of a route read off the
    tables of the context whose pattern accepts the path, or, when no
    route accepts it, the NotFound wrapper. *)
Theorem resolution_total_and_sound ctx st err st' :
  Initialize_Router W ctx st = Ok err st' ->
  exists router,
    DefaultServeMux st' = (DefaultServeMux st ++ [("/", router)])%list /\
    forall path,
      exists f,
        mux.Match (route_matches W) router path = Some f /\
        ((exists tpl, In (tpl, f) (router_routes W ctx) /\
                      route_matches W tpl path = true) \/
         (f = makeHandler_NotFound ctx (HTML_NotFound (Handlers_HTML ctx)) /\
          forall tpl g, In (tpl, g) (router_routes W ctx) ->
                        route_matches W tpl path = false)).
Proof.
  intros H. apply installed_router in H. eexists. split; [exact H|].
  intros path. unfold mux.Match. cbn [mux.routes mux.NotFoundHandler].
  destruct (mux.first_match (route_matches W) (router_routes W ctx) path)
    as [f|] eqn:F.
  - exists f. split; [reflexivity|]. left. apply first_match_in. exact F.
  - eexists. split; [reflexivity|]. right. split; [reflexivity|].
    intros tpl g Hin.
    destruct (route_matches W tpl path) eqn:E; [|reflexivity].
    destruct (first_match_hit _ _ _ _ Hin E) as (g' & Hg'). congruence.
Qed.

End DispatchFacts.

(** A context in which the pattern "/account" is both a public and an
    authenticated HTML route. *)
Lemma public_html_routes_win_witness :
  let ctx :=
    {| api_http.Auth := api_http.sample_Auth;
       api_http.CtxDirs := api_http.CtxDirs api_http.sample_Ctx;
       api_http.OnPanic := api_http.OnPanic api_http.sample_Ctx;
       api_http.Handlers_HTML :=
         {| api_http.HTML_Public := [("/account", api_http.h_home)];
            api_http.HTML_Authd := [("/account", api_http.h_account)];
            api_http.HTML_NotFound := api_http.h_notFound |};
       api_http.Handlers_XHR := api_http.Handlers_XHR api_http.sample_Ctx;
       api_http.Handlers_WS := api_http.Handlers_WS api_http.sample_Ctx;
       api_http.Handlers_FILE := api_http.Handlers_FILE api_http.sample_Ctx |} in
  exists st' router,
    api_http.Initialize_Router api_http.sample_World ctx api_http.zero =
      api_http.Ok None st' /\
    api_http.DefaultServeMux st' = [("/", router)] /\
    mux.Match String.eqb router "/account" =
      Some (api_http.makeHandler_HTML ctx api_http.h_home false).
Proof.
  cbv zeta.
  match goal with
  | |- exists st' router, api_http.Initialize_Router _ ?c _ = _ /\ _ =>
      destruct (public_html_routes_win api_http.sample_World c
                  api_http.zero None _ eq_refl) as (router & Hmux & Hwin)
  end.
  eexists. exists router. split; [reflexivity|]. split; [exact Hmux|].
  destruct (Hwin "/account" ("/account", api_http.h_home) "/account")
    as (e' & He' & Hm); [left; reflexivity | left; reflexivity | reflexivity|].
  destruct He' as [<-|[]]. exact Hm.
Defined.

Lemma resolution_total_and_sound_witness :
  exists st' router f,
    api_http.Initialize_Router api_http.sample_World api_http.sample_Ctx
      api_http.zero = api_http.Ok None st' /\
    api_http.DefaultServeMux st' = [("/", router)] /\
    mux.Match String.eqb router "/xhr/ping" = Some f.
Proof.
  destruct (resolution_total_and_sound api_http.sample_World
              api_http.sample_Ctx api_http.zero None _ eq_refl)
    as (router & Hmux & Hres).
  destruct (Hres "/xhr/ping") as (f & Hf & _).
  eexists. exists router, f. split; [reflexivity|].
  split; [exact Hmux | exact Hf].
Defined.
